(** * sharedpw: the secret record and the reveal protocol of dynamo.go

    A shallow embedding of [dynamo.go] (package [sharedpw]) and the
    properties of its deposit / reveal protocol.

    Conventions of the embedding.
    - A Go [string] is a [string] of 8-bit characters; [len] is
      [String.length] (a byte count, as in Go).
    - [int64] and [int] values are integers in [Z].  The only arithmetic
      the file performs is "clock + a number of hours"; the clock is the
      Unix time read by [time.Now], far from the 64-bit limits.
    - A Go [error] is [option error]: [None] is [nil].
    - A method with a pointer receiver returns the updated record next to
      its result.
    - The DynamoDB table is part of an explicit world that the store calls
      read and update; every store call is logged there. *)

From Stdlib Require Import ZArith NArith Ascii String List Bool Lia.
From Stdlib Require Import DecimalString.
From stdpp Require Import base option gmap strings list fin_maps.

Import ListNotations.
Local Open Scope string_scope.
Local Open Scope Z_scope.

(** ** Errors *)

(** The two sources of error values that flow through the file:
    [errors.New] with its text, and errors handed back by the AWS client
    (identified by their code and message, opaque to this package). *)
Inductive error : Type :=
| errors_New (text : string)
| awserr (code : string).

(** [err.Error()] *)
Definition Error (e : error) : string :=
  match e with
  | errors_New text => text
  | awserr code => code
  end.

(** ** Time *)

Module time.
(** [time.Hour], in seconds: every use in the file ends in [.Unix()]. *)
Definition Hour : Z := 3600.

(** [now.UTC().Add(time.Hour * h).Unix()] for a clock reading [now]
    (Unix seconds). *)
Definition AddHoursUnix (now : Z) (h : Z) : Z := now + Hour * h.
End time.

(** ** The Secret record *)

Record Secret : Type := mkSecret {
  Secret_Secret  : string;
  Secret_Expire  : Z;
  Secret_Hours   : Z;
  Secret_Message : string;
  Secret_Ip      : string;
  Secret_HasPass : bool;
  Secret_Hint    : string;
  Secret_Err     : option error;
  Secret_Tag     : string;
  Secret_Iv      : string;
  Secret_PwTag   : string;
  Secret_PwIv    : string
}.

(** [&Secret{}] : every field at its zero value. *)
Definition Secret_zero : Secret :=
  mkSecret "" 0 0 "" "" false "" None "" "" "" "".

(** Field assignments [s.F = v]. *)
Definition set_Secret (v : string) (s : Secret) : Secret :=
  mkSecret v (Secret_Expire s) (Secret_Hours s) (Secret_Message s)
           (Secret_Ip s) (Secret_HasPass s) (Secret_Hint s) (Secret_Err s)
           (Secret_Tag s) (Secret_Iv s) (Secret_PwTag s) (Secret_PwIv s).

Definition set_Expire (v : Z) (s : Secret) : Secret :=
  mkSecret (Secret_Secret s) v (Secret_Hours s) (Secret_Message s)
           (Secret_Ip s) (Secret_HasPass s) (Secret_Hint s) (Secret_Err s)
           (Secret_Tag s) (Secret_Iv s) (Secret_PwTag s) (Secret_PwIv s).

Definition set_Message (v : string) (s : Secret) : Secret :=
  mkSecret (Secret_Secret s) (Secret_Expire s) (Secret_Hours s) v
           (Secret_Ip s) (Secret_HasPass s) (Secret_Hint s) (Secret_Err s)
           (Secret_Tag s) (Secret_Iv s) (Secret_PwTag s) (Secret_PwIv s).

Definition set_Err (v : option error) (s : Secret) : Secret :=
  mkSecret (Secret_Secret s) (Secret_Expire s) (Secret_Hours s)
           (Secret_Message s) (Secret_Ip s) (Secret_HasPass s)
           (Secret_Hint s) v
           (Secret_Tag s) (Secret_Iv s) (Secret_PwTag s) (Secret_PwIv s).

(** [GetRandomId] is defined elsewhere in the package; its outcome
    [(id, err)] is an input of the functions that call it. *)
Definition RandomId : Type := (string * option error)%type.

(** [NewSecret], called when the clock reads [now]. *)
Definition NewSecret (now : Z) (rnd : RandomId) : Secret :=
  let s := set_Expire (time.AddHoursUnix now 72) Secret_zero in
  let '(id, err) := rnd in
  match err with
  | Some e => set_Err (Some e) s
  | None => set_Secret id s
  end.

(** [(s *Secret) NewId]: the identifier is assigned whatever the outcome. *)
Definition NewId (rnd : RandomId) (s : Secret) : Secret * option error :=
  let '(id, err) := rnd in
  (set_Secret id s, err).

(** [(s *Secret) SetTimeout], called when the clock reads [now]. *)
Definition SetTimeout (now : Z) (s : Secret) : Secret * option error :=
  if (Secret_Hours s <? 1) || (Secret_Hours s >? 72) then
    (s, Some (errors_New "invalid expiration"))
  else
    (set_Expire (time.AddHoursUnix now (Secret_Hours s)) s, None).

(** ** Library functions used by the file *)

(** [regexp.MatchString] for patterns that are an alternation of
    single-character classes, which is all [Reveal] needs.  Go matches on
    runes; the classes below only ever accept ASCII runes as "word" or
    range members, and every byte above 127 decodes to a rune above 127
    (or to U+FFFD), which [\W] matches.  Matching byte by byte is therefore
    the same relation. *)
Module regexp.
Inductive class : Type :=
| NotWord                                  (* \W *)
| Ranges (rs : list (ascii * ascii)).      (* [a-bc-d...] *)

(** [c1 | c2 | ...] *)
Definition pattern : Type := list class.

Definition in_range (lo hi c : ascii) : bool :=
  ((N_of_ascii lo <=? N_of_ascii c) && (N_of_ascii c <=? N_of_ascii hi))%N.

(** [\w] is [[0-9A-Za-z_]]. *)
Definition is_word (c : ascii) : bool :=
  in_range "0" "9" c || in_range "A" "Z" c || in_range "a" "z" c
  || Ascii.eqb c "_".

Definition class_matches (k : class) (c : ascii) : bool :=
  match k with
  | NotWord => negb (is_word c)
  | Ranges rs => existsb (fun r => in_range (fst r) (snd r) c) rs
  end.

Definition char_matches (p : pattern) (c : ascii) : bool :=
  existsb (fun k => class_matches k c) p.

(** An unanchored search: some character of [s] matches. *)
Definition MatchString (p : pattern) (s : string) : bool :=
  existsb (char_matches p) (list_ascii_of_string s).
End regexp.

(** [base64.StdEncoding.DecodeString]: the standard alphabet with
    mandatory [=] padding, not strict about trailing bits, skipping CR
    and LF.  The result is the decoded prefix and, on malformed input,
    the offset carried by [CorruptInputError]. *)
Module base64.
Definition CorruptInputError : Type := nat.

(** [CorruptInputError.Error()] *)
Definition CorruptInputError_Error (e : CorruptInputError) : string :=
  "illegal base64 data at input byte " ++ NilEmpty.string_of_uint (Nat.to_uint e).

Definition decodeMap (c : ascii) : option N :=
  let n := N_of_ascii c in
  (if (65 <=? n) && (n <=? 90) then Some (n - 65)
   else if (97 <=? n) && (n <=? 122) then Some (n - 97 + 26)
   else if (48 <=? n) && (n <=? 57) then Some (n - 48 + 52)
   else if n =? 43 then Some 62
   else if n =? 47 then Some 63
   else None)%N.

Definition is_newline (c : ascii) : bool :=
  Ascii.eqb c "010" || Ascii.eqb c "013".

Definition is_pad (c : ascii) : bool := Ascii.eqb c "=".

(** Four 6-bit values into three bytes. *)
Definition quantum (d0 d1 d2 d3 : N) : ascii * ascii * ascii :=
  let val :=
    N.lor (N.lor (N.lor (N.shiftl d0 18) (N.shiftl d1 12)) (N.shiftl d2 6)) d3 in
  (ascii_of_N (N.shiftr val 16), ascii_of_N (N.shiftr val 8), ascii_of_N val).

(** Skip CR / LF: how many were skipped, and what follows. *)
Fixpoint skip_newlines (src : list ascii) : nat * list ascii :=
  match src with
  | c :: rest =>
      if is_newline c then
        let '(k, rest') := skip_newlines rest in (S k, rest')
      else (O, src)
  | [] => (O, [])
  end.

(** The decoding loop.  [si] is the offset of the head of [src] in the
    whole input, [dbuf] the values of the quantum being assembled (at
    most three), [total] the length of the whole input. *)
Fixpoint decode (src : list ascii) (si : nat) (dbuf : list N) (total : nat)
  : string * option CorruptInputError :=
  match src with
  | [] =>
      match dbuf with
      | [] => (EmptyString, None)
      | _ => (EmptyString, Some (si - length dbuf)%nat)
      end
  | c :: rest =>
      match decodeMap c with
      | Some v =>
          match dbuf with
          | [d0; d1; d2] =>
              let '(b0, b1, b2) := quantum d0 d1 d2 v in
              let '(out, err) := decode rest (S si) [] total in
              (String b0 (String b1 (String b2 out)), err)
          | _ => decode rest (S si) (dbuf ++ [v]) total
          end
      | None =>
          if is_newline c then decode rest (S si) dbuf total
          else if negb (is_pad c) then (EmptyString, Some si)
          else
            match dbuf with
            | [d0; d1] =>
                (* "==" is expected, the first "=" is consumed *)
                let '(k, rest1) := skip_newlines rest in
                let si1 := (S si + k)%nat in
                match rest1 with
                | [] => (EmptyString, Some total)
                | c1 :: rest2 =>
                    if negb (is_pad c1) then (EmptyString, Some (si1 - 1)%nat)
                    else
                      let '(k2, rest3) := skip_newlines rest2 in
                      let err :=
                        match rest3 with
                        | [] => None
                        | _ => Some (S si1 + k2)%nat
                        end in
                      let '(b0, _, _) := quantum d0 d1 0 0 in
                      (String b0 EmptyString, err)
                end
            | [d0; d1; d2] =>
                let '(k, rest1) := skip_newlines rest in
                let err :=
                  match rest1 with
                  | [] => None
                  | _ => Some (S si + k)%nat
                  end in
                let '(b0, b1, _) := quantum d0 d1 d2 0 in
                (String b0 (String b1 EmptyString), err)
            | _ => (EmptyString, Some si)       (* incorrect padding *)
            end
      end
  end.

Definition DecodeString (s : string) : string * option CorruptInputError :=
  decode (list_ascii_of_string s) O [] (String.length s).
End base64.

(** ** The store gateway *)

(** The calls the file makes on the DynamoDB client. *)
Inductive Call : Type :=
| PutItem (item : Secret)
| Query (id : string)
| DeleteItem (id : string).

(** What the store calls see and change.
    - [table]: the items of the table, by partition key [secret].
    - [faults]: the outcome the client will give to the coming calls, one
      entry per call: [None] lets the call through, [Some code] makes it
      fail with the client error [awserr code]; an exhausted list lets
      everything through.
    - [calls]: the log of the calls made so far, the most recent first. *)
Record World : Type := mkWorld {
  table  : gmap string Secret;
  faults : list (option string);
  calls  : list Call
}.

(** Computations that use the store. *)
Definition M (A : Type) : Type := World -> A * World.

Definition ret {A : Type} (a : A) : M A := fun w => (a, w).

Definition bind {A B : Type} (m : M A) (k : A -> M B) : M B :=
  fun w => let '(a, w') := m w in k a w'.

Notation "'do' x <- m ; k" := (bind m (fun x => k))
  (at level 10, x name, m at level 100, k at level 200).

Module dynamodb.
(** One call reaches the client: it is logged and takes its outcome. *)
Definition issue (c : Call) : M (option error) :=
  fun w =>
    (option_map awserr (List.hd None (faults w)),
     mkWorld (table w) (List.tl (faults w)) (c :: calls w)).

Definition update (f : gmap string Secret -> gmap string Secret) : M unit :=
  fun w => (tt, mkWorld (f (table w)) (faults w) (calls w)).

Definition items (id : string) : M (list Secret) :=
  fun w => (match table w !! id with Some s => [s] | None => [] end, w).

(** [db.PutItem]: the item replaces whatever its key held. *)
Definition PutItem (s : Secret) : M (option error) :=
  do err <- issue (PutItem s) ;
  match err with
  | Some e => ret (Some e)
  | None => do u <- update (insert (Secret_Secret s) s) ; ret None
  end.

(** [db.Query] with the key condition [secret EQ id], followed by the
    unmarshalling of the items into records; a failure of either step is
    the error of the call. *)
Definition Query (id : string) : M (list Secret * option error) :=
  do err <- issue (Query id) ;
  match err with
  | Some e => ret ([], Some e)
  | None => do r <- items id ; ret (r, None)
  end.

(** [db.DeleteItem] by key; deleting a missing key is not an error. *)
Definition DeleteItem (id : string) : M (option error) :=
  do err <- issue (DeleteItem id) ;
  match err with
  | Some e => ret (Some e)
  | None => do u <- update (delete id) ; ret None
  end.
End dynamodb.

(** [newClient] never assigns its named result [err], and the table name it
    reads from the environment is the same at every call: the world holds
    that one table. *)
Definition newClient : option error := None.

(** ** Save *)

(** [(s *Secret) Save], called when the clock reads [now]. *)
Definition Save (now : Z) (b64EncSecret : string) (s : Secret)
  : M (Secret * option error) :=
  let s := if Secret_Expire s =? 0
           then set_Expire (time.AddHoursUnix now 24) s else s in
  let s := set_Message b64EncSecret s in
  match newClient with
  | Some e => ret (s, Some e)
  | None =>
      do err <- dynamodb.PutItem s ;
      ret (s, err)
  end.

(** ** Reveal *)

Record Revealed : Type := mkRevealed {
  Revealed_Secret  : string;
  Revealed_Exists  : bool;
  Revealed_HasPass : bool;
  Revealed_Hint    : string;
  Revealed_Tag     : string;
  Revealed_Iv      : string;
  Revealed_PwTag   : string;
  Revealed_PwIv    : string
}.

(** The named result [revealed] before any assignment. *)
Definition Revealed_zero : Revealed :=
  mkRevealed "" false false "" "" "" "" "".

(** [revealed.Exists = v] *)
Definition set_Exists (v : bool) (r : Revealed) : Revealed :=
  mkRevealed (Revealed_Secret r) v (Revealed_HasPass r) (Revealed_Hint r)
             (Revealed_Tag r) (Revealed_Iv r) (Revealed_PwTag r)
             (Revealed_PwIv r).

(** The pattern [\W|[g-zA-Z]]. *)
Definition notHex_pattern : regexp.pattern :=
  [ regexp.NotWord;
    regexp.Ranges [("g"%char, "z"%char); ("A"%char, "Z"%char)] ].

(** [fmt.Sprintf("%d", n)] *)
Definition Sprintf_d (n : nat) : string :=
  NilEmpty.string_of_uint (Nat.to_uint n).

(** [Reveal(id, ip, reveal)]; [ip] stands for the text [ip.String()], the
    only use the function makes of the address. *)
Definition Reveal (id : string) (ip : string) (reveal : bool)
  : M (Revealed * option error) :=
  let revealed := Revealed_zero in
  let notHex := regexp.MatchString notHex_pattern id in
  if negb (String.length id =? 16)%nat || notHex then
    ret (revealed, Some (errors_New "bad id"))
  else
    do q <- dynamodb.Query id ;
    match q with
    | (_, Some err) => ret (revealed, Some err)
    | ([], None) => ret (revealed, Some (errors_New "no items found"))
    | (s :: _, None) =>
        (* check the IP *)
        if (0 <? String.length (Secret_Ip s))%nat
           && negb (String.eqb (Secret_Ip s) ip) then
          ret (revealed, Some (errors_New "not found"))
        else if negb reveal then
          if String.eqb (Secret_Secret s) id then
            ret (set_Exists true revealed, None)
          else ret (revealed, None)
        else
          let '(secret, derr) := base64.DecodeString (Secret_Message s) in
          match derr with
          | Some e =>
              ret (revealed,
                   Some (errors_New ("could not decode secret "
                                     ++ base64.CorruptInputError_Error e)))
          | None =>
              if (String.length secret =? 0)%nat then
                ret (revealed,
                     Some (errors_New ("could not decode secret, got "
                                       ++ Sprintf_d (String.length secret)
                                       ++ " chars and error: <nil>")))
              else
                do err <- dynamodb.DeleteItem id ;
                match err with
                | Some e => ret (revealed, Some e)
                | None =>
                    ret (mkRevealed (Secret_Message s) true
                                    (Secret_HasPass s) (Secret_Hint s)
                                    (Secret_Tag s) (Secret_Iv s)
                                    (Secret_PwTag s) (Secret_PwIv s), None)
                end
          end
    end.

(** * The vocabulary of the properties *)

(** ** Save *)

(** The record as [Save] leaves it, whatever the store answers. *)
Definition saved (now : Z) (b64EncSecret : string) (s : Secret) : Secret :=
  set_Message b64EncSecret
    (if Secret_Expire s =? 0
     then set_Expire (time.AddHoursUnix now 24) s else s).

(** ** The guard on the identifier *)

Definition is_digit (c : ascii) : bool := regexp.in_range "0" "9" c.
Definition is_lower_hex (c : ascii) : bool := regexp.in_range "a" "f" c.
Definition is_upper_hex (c : ascii) : bool := regexp.in_range "A" "F" c.
Definition is_lower_g_z (c : ascii) : bool := regexp.in_range "g" "z" c.
Definition is_upper_A_Z (c : ascii) : bool := regexp.in_range "A" "Z" c.

(** The outcome of the guard on the identifier. *)
Definition bad_id : Revealed * option error :=
  (Revealed_zero, Some (errors_New "bad id")).

(** [Reveal] went past the guard: its result is not the guard's, and the
    first store call it made is the lookup of [id]. *)
Definition reaches_lookup (id ip : string) (reveal : bool) (w : World) : Prop :=
  snd (fst (Reveal id ip reveal w)) <> Some (errors_New "bad id")
  /\ exists later : list Call,
       calls (snd (Reveal id ip reveal w))
       = (later ++ Query id :: calls w)%list.

(** A hexadecimal digit of either case. *)
Definition is_hex_digit (c : ascii) : bool :=
  is_digit c || is_lower_hex c || is_upper_hex c.

(** The identifier goes past the guard of [Reveal]. *)
Definition well_formed (id : string) : Prop :=
  String.length id = 16%nat
  /\ regexp.MatchString notHex_pattern id = false.

(** The outcome of the [k]-th coming store call. *)
Definition coming (k : nat) (w : World) : option string :=
  nth k (faults w) None.

(** The origin check lets the requester through. *)
Definition origin_ok (s : Secret) (ip : string) : Prop :=
  Secret_Ip s = "" \/ Secret_Ip s = ip.

(** The number of deletes in a log of calls. *)
Fixpoint deletes (l : list Call) : nat :=
  match l with
  | DeleteItem _ :: l' => S (deletes l')
  | _ :: l' => deletes l'
  | [] => O
  end.

(** The number of calls that change the table. *)
Fixpoint mutations (l : list Call) : nat :=
  match l with
  | Query _ :: l' => mutations l'
  | _ :: l' => S (mutations l')
  | [] => O
  end.

(** The response of a successful destructive reveal of record [s]. *)
Definition disclosed (s : Secret) : Revealed :=
  mkRevealed (Secret_Message s) true (Secret_HasPass s) (Secret_Hint s)
             (Secret_Tag s) (Secret_Iv s) (Secret_PwTag s) (Secret_PwIv s).

(** ** The worlds a call leaves *)

(** The world once the lookup has been made. *)
Definition looked_up (id : string) (w : World) : World :=
  mkWorld (table w) (List.tl (faults w)) (Query id :: calls w).

(** The world once the delete has been attempted and has failed. *)
Definition delete_failed (id : string) (w : World) : World :=
  mkWorld (table w) (List.tl (List.tl (faults w)))
          (DeleteItem id :: Query id :: calls w).

(** The world once the delete has been made. *)
Definition deleted (id : string) (w : World) : World :=
  mkWorld (delete id (table w)) (List.tl (List.tl (faults w)))
          (DeleteItem id :: Query id :: calls w).

(** ** Every way a call can end *)

(** The paths through [Reveal], each with the condition that selects it,
    the result it returns and the world it leaves. *)
Inductive outcome (id ip : string) (reveal : bool) (w : World)
  : Revealed * option error * World -> Prop :=
| out_bad_id :
    ~ well_formed id ->
    outcome id ip reveal w (bad_id, w)
| out_lookup_failed (code : string) :
    well_formed id -> coming 0 w = Some code ->
    outcome id ip reveal w
      (Revealed_zero, Some (awserr code), looked_up id w)
| out_absent :
    well_formed id -> coming 0 w = None -> table w !! id = None ->
    outcome id ip reveal w
      (Revealed_zero, Some (errors_New "no items found"), looked_up id w)
| out_origin_mismatch (s : Secret) :
    well_formed id -> coming 0 w = None -> table w !! id = Some s ->
    ~ origin_ok s ip ->
    outcome id ip reveal w
      (Revealed_zero, Some (errors_New "not found"), looked_up id w)
| out_exists (s : Secret) :
    well_formed id -> coming 0 w = None -> table w !! id = Some s ->
    origin_ok s ip -> reveal = false ->
    outcome id ip reveal w
      (if String.eqb (Secret_Secret s) id
       then set_Exists true Revealed_zero else Revealed_zero,
       None, looked_up id w)
| out_decode_error (s : Secret) (secret : string)
                   (e : base64.CorruptInputError) :
    well_formed id -> coming 0 w = None -> table w !! id = Some s ->
    origin_ok s ip -> reveal = true ->
    base64.DecodeString (Secret_Message s) = (secret, Some e) ->
    outcome id ip reveal w
      (Revealed_zero,
       Some (errors_New ("could not decode secret "
                         ++ base64.CorruptInputError_Error e)),
       looked_up id w)
| out_decode_empty (s : Secret) :
    well_formed id -> coming 0 w = None -> table w !! id = Some s ->
    origin_ok s ip -> reveal = true ->
    base64.DecodeString (Secret_Message s) = ("", None) ->
    outcome id ip reveal w
      (Revealed_zero,
       Some (errors_New
               "could not decode secret, got 0 chars and error: <nil>"),
       looked_up id w)
| out_delete_failed (s : Secret) (secret code : string) :
    well_formed id -> coming 0 w = None -> table w !! id = Some s ->
    origin_ok s ip -> reveal = true ->
    base64.DecodeString (Secret_Message s) = (secret, None) ->
    secret <> "" ->
    coming 1 w = Some code ->
    outcome id ip reveal w
      (Revealed_zero, Some (awserr code), delete_failed id w)
| out_disclosed (s : Secret) (secret : string) :
    well_formed id -> coming 0 w = None -> table w !! id = Some s ->
    origin_ok s ip -> reveal = true ->
    base64.DecodeString (Secret_Message s) = (secret, None) ->
    secret <> "" ->
    coming 1 w = None ->
    outcome id ip reveal w (disclosed s, None, deleted id w).

(** The two errors of the decoding step share their first words. *)
Definition DecodeError (err : option error) : Prop :=
  exists text : string,
    err = Some (errors_New ("could not decode secret" ++ text)).

(** ** Sample data *)

(** The inputs of the closed instances of the properties. *)
Module Sample.
Definition id : string := "0123456789abcdef".

(** A deposited record bound to no origin, payload "hello". *)
Definition record : Secret :=
  mkSecret id 1700259200 0 "aGVsbG8=" "" true "greeting" None
           "dGFn" "aXY=" "" "".

(** The same record, bound to the origin 10.0.0.1. *)
Definition bound : Secret :=
  mkSecret id 1700259200 0 "aGVsbG8=" "10.0.0.1" true "greeting" None
           "dGFn" "aXY=" "" "".

Definition empty : World := mkWorld ∅ [] [].

(** A healthy store that holds [record]. *)
Definition stored : World := mkWorld {[ id := record ]} [] [].

(** A store that holds [record], answers the next call and fails the
    one after. *)
Definition failing_delete : World :=
  mkWorld {[ id := record ]} [None; Some "InternalServerError"] [].

(** A second identifier, and a record deposited under it. *)
Definition other_id : string := "fedcba9876543210".

Definition other : Secret :=
  mkSecret other_id 1700259200 0 "b3RoZXI=" "" false "" None "" "" "" "".

(** A record whose identifier the guard of [Reveal] refuses. *)
Definition shouting : Secret :=
  mkSecret "0123456789ABCDEF" 1700259200 0 "aGVsbG8=" "" false "" None
           "" "" "" "".

(** The record [record] as read back long after its expiry. *)
Definition expired : Secret :=
  mkSecret id 1 99 "aGVsbG8=" "" true "greeting"
           (Some (errors_New "stale")) "dGFn" "aXY=" "" "".

(** A store that holds [record] and fails the next call. *)
Definition failing_lookup : World :=
  mkWorld {[ id := record ]} [Some "ProvisionedThroughputExceededException"] [].

(** A healthy store that holds [bound]. *)
Definition stored_bound : World := mkWorld {[ id := bound ]} [] [].

(** A record whose payload is not base64, and a healthy store that
    holds it. *)
Definition garbled : Secret :=
  mkSecret id 1700259200 0 "hunter2" "" false "" None "" "" "" "".

Definition stored_garbled : World := mkWorld {[ id := garbled ]} [] [].
End Sample.

(** ** The rest of the file: configuration and repeated calls *)

(** [newClient] in full.  The process environment is a finite map
    ([os.LookupEnv] is its lookup: a variable set to the empty string is
    found); the client is known by the region its session was built for.
    The result [err] is the named result of the function, which no
    statement assigns: the [err] of [session.NewSession] is a variable of
    the inner function and is only logged. *)
Module config.
Record DynamoDB : Type := mkDynamoDB { Region : string }.

Definition LookupEnv (environ : gmap string string) (key : string)
  : option string := environ !! key.

Definition newClient (environ : gmap string string)
  : string * DynamoDB * option error :=
  (match LookupEnv environ "APPLICATION" with
   | Some t => t
   | None => "sharedpw"
   end,
   mkDynamoDB
     (match LookupEnv environ "REGION" with
      | Some region => region
      | None => "us-east-1"
      end),
   None).
End config.

(** The bytes the guard of [Reveal] lets through. *)
Definition accepted_char (c : ascii) : bool :=
  is_digit c || is_lower_hex c || Ascii.eqb c "_".

Definition accepted_id (id : string) : bool :=
  (String.length id =? 16)%nat
  && forallb accepted_char (list_ascii_of_string id).

(** The world after [n] existence checks of [id] in a row. *)
Fixpoint check_times (n : nat) (id ip : string) (w : World) : World :=
  match n with
  | O => w
  | S n' => check_times n' id ip (snd (Reveal id ip false w))
  end.

(** Two records that agree on every field [Reveal] reads. *)
Definition same_view (s s' : Secret) : Prop :=
  Secret_Secret s = Secret_Secret s'
  /\ Secret_Message s = Secret_Message s'
  /\ Secret_Ip s = Secret_Ip s'
  /\ Secret_HasPass s = Secret_HasPass s'
  /\ Secret_Hint s = Secret_Hint s'
  /\ Secret_Tag s = Secret_Tag s'
  /\ Secret_Iv s = Secret_Iv s'
  /\ Secret_PwTag s = Secret_PwTag s'
  /\ Secret_PwIv s = Secret_PwIv s'.

(** [s.Hours = v] *)
Definition set_Hours (v : Z) (s : Secret) : Secret :=
  mkSecret (Secret_Secret s) (Secret_Expire s) v (Secret_Message s)
           (Secret_Ip s) (Secret_HasPass s) (Secret_Hint s) (Secret_Err s)
           (Secret_Tag s) (Secret_Iv s) (Secret_PwTag s) (Secret_PwIv s).

(** The world with the item under [id] replaced by [s]. *)
Definition with_item (id : string) (s : Secret) (w : World) : World :=
  mkWorld (<[id := s]> (table w)) (faults w) (calls w).

(** * Properties *)

(** Unfold the store computations down to functions on worlds. *)
Ltac run_store :=
  cbv [bind ret newClient dynamodb.PutItem dynamodb.Query dynamodb.DeleteItem
       dynamodb.issue dynamodb.update dynamodb.items].

(** ** The library models on sample inputs *)

Example base64_hello :
  base64.DecodeString "aGVsbG8=" = ("hello", None).
Proof. reflexivity. Qed.

Example base64_hi_lines :
  base64.DecodeString ("aG" ++ String "010" "k=") = ("hi", None).
Proof. reflexivity. Qed.

Example base64_plain_text :
  base64.DecodeString "hunter2" = (String "134" (String "233" (String "237" "")), Some 4%nat).
Proof. vm_compute. reflexivity. Qed.

(** ** The secret record: lifetimes *)

Section Lifetimes.
Variable now : Z.

Lemma SetTimeout_in_range (s : Secret) :
  1 <= Secret_Hours s <= 72 ->
  SetTimeout now s
  = (set_Expire (now + 3600 * Secret_Hours s) s, None).
Proof.
  intros [Hlo Hhi]. unfold SetTimeout, time.AddHoursUnix, time.Hour.
  destruct (Z.ltb_spec (Secret_Hours s) 1) as [Hlt | _]; [lia |].
  destruct (Z.gtb_spec (Secret_Hours s) 72) as [Hgt | _]; [lia |].
  reflexivity.
Qed.

Lemma SetTimeout_out_of_range (s : Secret) :
  Secret_Hours s <= 0 \/ Secret_Hours s > 72 ->
  SetTimeout now s = (s, Some (errors_New "invalid expiration")).
Proof.
  intros Hout. unfold SetTimeout.
  destruct (Z.ltb_spec (Secret_Hours s) 1) as [_ | Hge]; [reflexivity |].
  destruct (Z.gtb_spec (Secret_Hours s) 72) as [_ | Hle]; [reflexivity |].
  lia.
Qed.
End Lifetimes.

(** C6. For an hour count [h] with [1 <= h <= 72], [SetTimeout] succeeds
    and sets [Expire] to the clock plus [h] hours (in seconds), every other
    field keeping its value; for [h <= 0] or [h > 72] it fails with the
    error "invalid expiration" and the record is left as it was. *)
Theorem SetTimeout_correct (now : Z) (s : Secret) :
  (1 <= Secret_Hours s <= 72 ->
   let '(s', err) := SetTimeout now s in
   err = None
   /\ Secret_Expire s' = now + Secret_Hours s * 3600
   /\ s' = set_Expire (Secret_Expire s') s)
  /\
  (Secret_Hours s <= 0 \/ Secret_Hours s > 72 ->
   let '(s', err) := SetTimeout now s in
   err = Some (errors_New "invalid expiration")
   /\ Secret_Expire s' = Secret_Expire s
   /\ s' = s).
Proof.
  split; intros H.
  - rewrite SetTimeout_in_range by exact H. cbn. repeat split. lia.
  - rewrite SetTimeout_out_of_range by exact H. repeat split.
Qed.

Lemma SetTimeout_correct_witness :
  (let '(s', err) := SetTimeout 1700000000 (mkSecret "" 0 5 "" "" false "" None "" "" "" "") in
   err = None
   /\ Secret_Expire s' = 1700000000 + 5 * 3600
   /\ s' = set_Expire (Secret_Expire s') (mkSecret "" 0 5 "" "" false "" None "" "" "" ""))
  /\
  (let '(s', err) := SetTimeout 1700000000 (mkSecret "" 7 73 "" "" false "" None "" "" "" "") in
   err = Some (errors_New "invalid expiration")
   /\ Secret_Expire s' = 7
   /\ s' = mkSecret "" 7 73 "" "" false "" None "" "" "" "").
Proof.
  split.
  - apply (proj1 (SetTimeout_correct 1700000000
                    (mkSecret "" 0 5 "" "" false "" None "" "" "" ""))).
    simpl. lia.
  - apply (proj2 (SetTimeout_correct 1700000000
                    (mkSecret "" 7 73 "" "" false "" None "" "" "" ""))).
    simpl. lia.
Defined.

(** ** Save: the expiry default *)

Section SaveExpiry.
Variables (now : Z) (b64EncSecret : string).

Lemma Save_record (s : Secret) (w : World) :
  fst (fst (Save now b64EncSecret s w)) = saved now b64EncSecret s.
Proof.
  unfold Save, saved. run_store.
  destruct (faults w) as [| [e |] fs]; reflexivity.
Qed.

(** With no fault pending, the call succeeds and the table holds the
    record under its identifier. *)
Lemma Save_stores (s : Secret) (w : World) :
  List.hd None (faults w) = None ->
  Save now b64EncSecret s w
  = ((saved now b64EncSecret s, None),
     mkWorld (<[Secret_Secret s := saved now b64EncSecret s]> (table w))
             (List.tl (faults w)) (PutItem (saved now b64EncSecret s) :: calls w)).
Proof.
  intros H. unfold Save, saved. run_store. rewrite H. cbn.
  destruct (Secret_Expire s =? 0); reflexivity.
Qed.

Lemma saved_expire_zero (s : Secret) :
  Secret_Expire s = 0 -> Secret_Expire (saved now b64EncSecret s) = now + 24 * 3600.
Proof.
  intros H. unfold saved, time.AddHoursUnix, time.Hour. rewrite H. cbn. lia.
Qed.

Lemma saved_expire_nonzero (s : Secret) :
  Secret_Expire s <> 0 -> Secret_Expire (saved now b64EncSecret s) = Secret_Expire s.
Proof.
  intros H. unfold saved.
  destruct (Z.eqb_spec (Secret_Expire s) 0); [contradiction | reflexivity].
Qed.
End SaveExpiry.

Lemma NewSecret_expire (t0 : Z) (rnd : RandomId) :
  Secret_Expire (NewSecret t0 rnd) = t0 + 72 * 3600.
Proof.
  unfold NewSecret, time.AddHoursUnix, time.Hour.
  destruct rnd as [id [e |]]; cbn; lia.
Qed.

(** C7. [Save] replaces the expiry by "clock + 24 hours" exactly when the
    record's [Expire] is zero.  A record made by [NewSecret] at time [t0]
    (whose expiry, [t0] + 72 hours, is not zero) and saved at any time [t1]
    without [SetTimeout] keeps [Expire] = [t0] + 72 hours, in the record
    and in the item written to the store. *)
Theorem Save_keeps_creation_expiry
    (t0 t1 : Z) (rnd : RandomId) (P : string) (w : World) :
  time.AddHoursUnix t0 72 <> 0 ->
  let '((s', _), w') := Save t1 P (NewSecret t0 rnd) w in
  Secret_Expire s' = t0 + 72 * 3600
  /\ head (calls w') = Some (PutItem s')
  /\ (forall (s : Secret) (v : World),
        Secret_Expire s <> 0 ->
        Secret_Expire (fst (fst (Save t1 P s v))) = Secret_Expire s)
  /\ (forall (s : Secret) (v : World),
        Secret_Expire s = 0 ->
        Secret_Expire (fst (fst (Save t1 P s v))) = t1 + 24 * 3600).
Proof.
  intros Hnz.
  pose proof (Save_record t1 P (NewSecret t0 rnd) w) as Hrec.
  assert (Hcall : head (calls (snd (Save t1 P (NewSecret t0 rnd) w)))
                  = Some (PutItem (saved t1 P (NewSecret t0 rnd)))).
  { unfold Save, saved. run_store.
    destruct (faults w) as [| [e |] fs]; reflexivity. }
  destruct (Save t1 P (NewSecret t0 rnd) w) as [[s' err] w'].
  cbn in Hrec, Hcall. subst s'.
  assert (Hexp : Secret_Expire (NewSecret t0 rnd) <> 0).
  { rewrite NewSecret_expire. unfold time.AddHoursUnix, time.Hour in Hnz. lia. }
  split; [| split; [| split]].
  - rewrite saved_expire_nonzero by exact Hexp. apply NewSecret_expire.
  - exact Hcall.
  - intros s v Hs. rewrite Save_record. now apply saved_expire_nonzero.
  - intros s v Hs. rewrite Save_record. now apply saved_expire_zero.
Qed.

Lemma Save_keeps_creation_expiry_witness :
  let '((s', _), w') :=
    Save 1700000060 "aGVsbG8=" (NewSecret 1700000000 ("0123456789abcdef", None))
         (mkWorld ∅ [] []) in
  Secret_Expire s' = 1700000000 + 72 * 3600
  /\ head (calls w') = Some (PutItem s')
  /\ (forall (s : Secret) (v : World),
        Secret_Expire s <> 0 ->
        Secret_Expire (fst (fst (Save 1700000060 "aGVsbG8=" s v)))
        = Secret_Expire s)
  /\ (forall (s : Secret) (v : World),
        Secret_Expire s = 0 ->
        Secret_Expire (fst (fst (Save 1700000060 "aGVsbG8=" s v)))
        = 1700000060 + 24 * 3600).
Proof.
  apply (Save_keeps_creation_expiry 1700000000 1700000060
           ("0123456789abcdef", None) "aGVsbG8=" (mkWorld ∅ [] [])).
  unfold time.AddHoursUnix, time.Hour. lia.
Defined.

(** ** Reveal: the validation of the identifier *)

Section Validation.
(** The characters the pattern lets through are the digits, [a-f] and
    the underscore. *)
Lemma notHex_char (c : ascii) :
  regexp.char_matches notHex_pattern c
  = negb (is_digit c || is_lower_hex c || Ascii.eqb c "_").
Proof. destruct c as [[] [] [] [] [] [] [] []]; reflexivity. Qed.

Lemma letter_is_notHex (c : ascii) :
  is_lower_g_z c = true \/ is_upper_A_Z c = true ->
  regexp.char_matches notHex_pattern c = true.
Proof.
  destruct c as [[] [] [] [] [] [] [] []]; vm_compute;
    intros [H | H]; congruence.
Qed.

Lemma MatchString_true (p : regexp.pattern) (s : string) :
  regexp.MatchString p s = true
  <-> exists c, In c (list_ascii_of_string s)
                /\ regexp.char_matches p c = true.
Proof. unfold regexp.MatchString. apply existsb_exists. Qed.

Lemma MatchString_false (p : regexp.pattern) (s : string) :
  regexp.MatchString p s = false
  <-> forall c, In c (list_ascii_of_string s)
                -> regexp.char_matches p c = false.
Proof.
  unfold regexp.MatchString. rewrite <- not_true_iff_false, existsb_exists.
  split.
  - intros Hno c Hc. apply not_true_iff_false. intros Hm. apply Hno. eauto.
  - intros Hall [c [Hc Hm]]. rewrite (Hall c Hc) in Hm. discriminate.
Qed.

Variables (id ip : string) (reveal : bool) (w : World).

(** The guard fails: nothing else happens. *)
Lemma Reveal_guard_fails :
  String.length id <> 16%nat
  \/ regexp.MatchString notHex_pattern id = true ->
  Reveal id ip reveal w = (bad_id, w).
Proof.
  intros H. unfold Reveal.
  destruct (Nat.eqb_spec (String.length id) 16) as [Hlen | Hlen]; cbn.
  - destruct H as [H | ->]; [contradiction | reflexivity].
  - reflexivity.
Qed.

(** The guard passes: the lookup is the first store call. *)
Lemma Reveal_guard_passes :
  String.length id = 16%nat ->
  regexp.MatchString notHex_pattern id = false ->
  reaches_lookup id ip reveal w.
Proof.
  intros Hlen Hre. unfold reaches_lookup, Reveal.
  rewrite Hlen, Hre. cbn [Nat.eqb negb orb]. run_store.
  destruct (faults w) as [| [code |] [| [code' |] fs]]; cbn.
  all: try (destruct (table w !! id) as [s |]; cbn).
  all: repeat match goal with
         | |- context [if ?b then _ else _] => destruct b; cbn
         | |- context [let '(_, _) := ?p in _] => destruct p as [? [?|]]; cbn
         end.
  all: split;
    [intros H;
     first [discriminate H
           | injection H as H; cbv [String.append] in H; discriminate H] |].
  all: first [ now exists [] | now exists [DeleteItem id] ].
Qed.
End Validation.

(** C8. An identifier whose length is not 16, or that contains a letter
    in [g-z] or an uppercase letter in [A-Z], makes [Reveal] fail with the
    error "bad id" at once: the response is empty and the world is the one
    it started from, so no store call was made. *)
Theorem Reveal_rejects_malformed_id
    (id ip : string) (reveal : bool) (w : World) :
  String.length id <> 16%nat
  \/ (exists c, In c (list_ascii_of_string id)
                /\ (is_lower_g_z c = true \/ is_upper_A_Z c = true)) ->
  let '((revealed, err), w') := Reveal id ip reveal w in
  revealed = Revealed_zero
  /\ err = Some (errors_New "bad id")
  /\ w' = w
  /\ calls w' = calls w.
Proof.
  intros H.
  rewrite Reveal_guard_fails; [repeat split |].
  destruct H as [H | [c [Hin Hc]]]; [now left | right].
  apply MatchString_true. exists c. split; [exact Hin |].
  now apply letter_is_notHex.
Qed.

Lemma Reveal_rejects_malformed_id_witness :
  let '((revealed, err), w') :=
    Reveal "0123456789abcdeg" "10.0.0.1" true
           (mkWorld ∅ [] []) in
  revealed = Revealed_zero
  /\ err = Some (errors_New "bad id")
  /\ w' = mkWorld ∅ [] []
  /\ calls w' = [].
Proof.
  apply (Reveal_rejects_malformed_id "0123456789abcdeg" "10.0.0.1" true
           (mkWorld ∅ [] [])).
  right. exists "g"%char. split; [| left; reflexivity].
  cbn. tauto.
Defined.

(** C9, as stated, fails: the identifier [0123456789ABCDEF] has 16
    characters, all hexadecimal digits, and [Reveal] rejects it with
    "bad id" without any store call. *)
Lemma uppercase_hex_id_rejected :
  String.length "0123456789ABCDEF" = 16%nat
  /\ forallb is_hex_digit (list_ascii_of_string "0123456789ABCDEF") = true
  /\ Reveal "0123456789ABCDEF" "10.0.0.1" true (mkWorld ∅ [] [])
     = ((Revealed_zero, Some (errors_New "bad id")), mkWorld ∅ [] [])
  /\ ~ reaches_lookup "0123456789ABCDEF" "10.0.0.1" true (mkWorld ∅ [] []).
Proof.
  split; [reflexivity |]. split; [reflexivity |].
  assert (HR : Reveal "0123456789ABCDEF" "10.0.0.1" true (mkWorld ∅ [] [])
               = (bad_id, mkWorld ∅ [] [])).
  { apply Reveal_guard_fails. right. reflexivity. }
  split; [exact HR |].
  intros [Hne _]. rewrite HR in Hne. now apply Hne.
Qed.

(** C9, amended. A 16-character identifier made of digits and of the
    lowercase letters [a-f] only goes past the guard and reaches the store
    lookup; a 16-character identifier that contains an uppercase
    hexadecimal digit [A-F] is rejected with "bad id" before any store
    call. *)
Theorem Reveal_accepts_lowercase_hex_only
    (id ip : string) (reveal : bool) (w : World) :
  String.length id = 16%nat ->
  ((forall c, In c (list_ascii_of_string id) ->
              is_digit c = true \/ is_lower_hex c = true) ->
   reaches_lookup id ip reveal w)
  /\
  ((exists c, In c (list_ascii_of_string id) /\ is_upper_hex c = true) ->
   Reveal id ip reveal w = ((Revealed_zero, Some (errors_New "bad id")), w)).
Proof.
  intros Hlen. split.
  - intros Hall. apply Reveal_guard_passes; [exact Hlen |].
    apply MatchString_false. intros c Hc. rewrite notHex_char.
    destruct (Hall c Hc) as [-> | ->]; [reflexivity |].
    now rewrite orb_true_r.
  - intros [c [Hin Hc]]. apply Reveal_guard_fails. right.
    apply MatchString_true. exists c. split; [exact Hin |].
    apply letter_is_notHex. right.
    revert Hc. destruct c as [[] [] [] [] [] [] [] []]; vm_compute; congruence.
Qed.

Lemma Reveal_accepts_lowercase_hex_only_witness :
  reaches_lookup "0123456789abcdef" "10.0.0.1" false (mkWorld ∅ [] [])
  /\ Reveal "0123456789abcdeF" "10.0.0.1" false (mkWorld ∅ [] [])
     = ((Revealed_zero, Some (errors_New "bad id")), mkWorld ∅ [] []).
Proof.
  split.
  - apply (proj1 (Reveal_accepts_lowercase_hex_only
                    "0123456789abcdef" "10.0.0.1" false (mkWorld ∅ [] [])
                    eq_refl)).
    intros c Hc. cbn in Hc.
    repeat (destruct Hc as [<- | Hc]; [vm_compute; tauto |]).
    destruct Hc.
  - apply (proj2 (Reveal_accepts_lowercase_hex_only
                    "0123456789abcdeF" "10.0.0.1" false (mkWorld ∅ [] [])
                    eq_refl)).
    exists "F"%char. split; [cbn; tauto | reflexivity].
Defined.

(** C10. The identifier made of sixteen underscores contains no
    hexadecimal digit, yet it goes past the guard of [Reveal] and reaches
    the store lookup: the underscore is a word character, so [\W] does not
    match it, and it lies in neither [g-z] nor [A-Z]. *)
Theorem underscore_id_reaches_lookup :
  exists id : string,
    id = "________________"
    /\ String.length id = 16%nat
    /\ forallb (fun c => negb (is_hex_digit c)) (list_ascii_of_string id) = true
    /\ regexp.class_matches regexp.NotWord "_" = false
    /\ regexp.class_matches
         (regexp.Ranges [("g"%char, "z"%char); ("A"%char, "Z"%char)]) "_"
       = false
    /\ regexp.MatchString notHex_pattern id = false
    /\ forall (ip : string) (reveal : bool) (w : World),
         reaches_lookup id ip reveal w.
Proof.
  exists "________________".
  repeat (split; [reflexivity |]).
  intros ip reveal w. now apply Reveal_guard_passes.
Qed.

(** ** Reveal: after the guard *)

Lemma coming_0 (w : World) : List.hd None (faults w) = coming 0 w.
Proof. unfold coming. now destruct (faults w). Qed.

Lemma coming_1 (w : World) :
  List.hd None (List.tl (faults w)) = coming 1 w.
Proof. unfold coming. destruct (faults w) as [| f [| g fs]]; reflexivity. Qed.

Lemma origin_check (s : Secret) (ip : string) :
  (0 <? String.length (Secret_Ip s))%nat && negb (String.eqb (Secret_Ip s) ip)
  = false
  <-> origin_ok s ip.
Proof.
  unfold origin_ok. destruct (String.eqb_spec (Secret_Ip s) ip) as [He | Hne].
  - rewrite andb_false_r. tauto.
  - rewrite andb_true_r. destruct (Secret_Ip s) as [| a r]; cbn.
    + tauto.
    + split; [discriminate | intros [H | H]; [discriminate | contradiction]].
Qed.

Section AfterGuard.
Variables (id ip : string) (w : World).
Hypothesis Hid : well_formed id.

Ltac settle := cbn [option_map table faults calls fst snd].

Ltac past_guard :=
  unfold Reveal;
  destruct Hid as [Hlen Hre]; rewrite Hlen, Hre;
  cbn [Nat.eqb negb orb]; run_store; cbn [table faults calls];
  rewrite ?coming_1, ?coming_0.

Lemma Reveal_lookup_fails (reveal : bool) (code : string) :
  coming 0 w = Some code ->
  Reveal id ip reveal w = ((Revealed_zero, Some (awserr code)), (looked_up id w)).
Proof. intros Hq. past_guard. rewrite Hq. reflexivity. Qed.

Lemma Reveal_absent (reveal : bool) :
  coming 0 w = None ->
  table w !! id = None ->
  Reveal id ip reveal w
  = ((Revealed_zero, Some (errors_New "no items found")), (looked_up id w)).
Proof. intros Hq Hs. past_guard. rewrite Hq. settle. rewrite Hs. reflexivity. Qed.

Section Found.
Variable s : Secret.
Hypothesis Hq : coming 0 w = None.
Hypothesis Hs : table w !! id = Some s.

Lemma Reveal_origin_mismatch (reveal : bool) :
  ~ origin_ok s ip ->
  Reveal id ip reveal w
  = ((Revealed_zero, Some (errors_New "not found")), (looked_up id w)).
Proof.
  intros Hip. past_guard. rewrite Hq. settle. rewrite Hs. settle.
  destruct ((0 <? String.length (Secret_Ip s))%nat
            && negb (String.eqb (Secret_Ip s) ip)) eqn:E; [reflexivity |].
  apply origin_check in E. contradiction.
Qed.

Hypothesis Hip : origin_ok s ip.

Lemma Reveal_exists_only :
  Reveal id ip false w
  = ((if String.eqb (Secret_Secret s) id
      then set_Exists true Revealed_zero else Revealed_zero, None),
     (looked_up id w)).
Proof.
  past_guard. rewrite Hq. settle. rewrite Hs. settle.
  apply origin_check in Hip. rewrite Hip. cbn [negb].
  destruct (String.eqb (Secret_Secret s) id); reflexivity.
Qed.

Lemma Reveal_decode_error (secret : string) (e : base64.CorruptInputError) :
  base64.DecodeString (Secret_Message s) = (secret, Some e) ->
  Reveal id ip true w
  = ((Revealed_zero,
      Some (errors_New ("could not decode secret "
                        ++ base64.CorruptInputError_Error e))),
     (looked_up id w)).
Proof.
  intros Hd. past_guard. rewrite Hq. settle. rewrite Hs. settle.
  apply origin_check in Hip. rewrite Hip, Hd. reflexivity.
Qed.

Lemma Reveal_decode_empty :
  base64.DecodeString (Secret_Message s) = ("", None) ->
  Reveal id ip true w
  = ((Revealed_zero,
      Some (errors_New
              "could not decode secret, got 0 chars and error: <nil>")),
     (looked_up id w)).
Proof.
  intros Hd. past_guard. rewrite Hq. settle. rewrite Hs. settle.
  apply origin_check in Hip. rewrite Hip, Hd. reflexivity.
Qed.

Section Decoded.
Variable secret : string.
Hypothesis Hd : base64.DecodeString (Secret_Message s) = (secret, None).
Hypothesis Hne : secret <> "".

Lemma Reveal_delete_fails (code : string) :
  coming 1 w = Some code ->
  Reveal id ip true w
  = ((Revealed_zero, Some (awserr code)), (delete_failed id w)).
Proof.
  intros Hdel. past_guard. rewrite Hq. settle. rewrite Hs. settle.
  apply origin_check in Hip. rewrite Hip, Hd.
  destruct secret as [| a r]; [contradiction |].
  cbn [String.length Nat.eqb]. settle.
  rewrite coming_1, Hdel. reflexivity.
Qed.

Lemma Reveal_discloses :
  coming 1 w = None ->
  Reveal id ip true w = ((disclosed s, None), (deleted id w)).
Proof.
  intros Hdel. past_guard. rewrite Hq. settle. rewrite Hs. settle.
  apply origin_check in Hip. rewrite Hip, Hd.
  destruct secret as [| a r]; [contradiction |].
  cbn [String.length Nat.eqb]. settle.
  rewrite coming_1, Hdel. reflexivity.
Qed.
End Decoded.
End Found.
End AfterGuard.

(** ** Reveal: every way a call can end *)

Lemma well_formed_dec (id : string) : {well_formed id} + {~ well_formed id}.
Proof.
  unfold well_formed.
  destruct (Nat.eq_dec (String.length id) 16%nat) as [Hl | Hl];
    [| right; tauto].
  destruct (regexp.MatchString notHex_pattern id) eqn:Hre;
    [right; intros [_ H]; discriminate | left; tauto].
Defined.

Lemma origin_ok_dec (s : Secret) (ip : string) :
  {origin_ok s ip} + {~ origin_ok s ip}.
Proof.
  destruct ((0 <? String.length (Secret_Ip s))%nat
            && negb (String.eqb (Secret_Ip s) ip)) eqn:E.
  - right. intros H. apply origin_check in H. congruence.
  - left. now apply origin_check.
Defined.

Lemma not_well_formed (id : string) :
  ~ well_formed id ->
  String.length id <> 16%nat
  \/ regexp.MatchString notHex_pattern id = true.
Proof.
  unfold well_formed. intros H.
  destruct (Nat.eq_dec (String.length id) 16%nat) as [Hl | Hl]; [| now left].
  destruct (regexp.MatchString notHex_pattern id); [now right | tauto].
Qed.

(** [Reveal] always ends, along one of the paths. *)
Lemma Reveal_outcome (id ip : string) (reveal : bool) (w : World) :
  outcome id ip reveal w (Reveal id ip reveal w).
Proof.
  destruct (well_formed_dec id) as [Hid | Hid].
  2: { rewrite Reveal_guard_fails by now apply not_well_formed.
       now constructor. }
  destruct (coming 0 w) as [code |] eqn:Hq.
  { rewrite (Reveal_lookup_fails id ip w Hid reveal code Hq).
    now constructor. }
  destruct (table w !! id) as [s |] eqn:Hs.
  2: { rewrite (Reveal_absent id ip w Hid reveal Hq Hs). now constructor. }
  destruct (origin_ok_dec s ip) as [Hip | Hip].
  2: { rewrite (Reveal_origin_mismatch id ip w Hid s Hq Hs reveal Hip).
       now apply (out_origin_mismatch _ _ _ _ s). }
  destruct reveal.
  2: { rewrite (Reveal_exists_only id ip w Hid s Hq Hs Hip).
       now apply (out_exists _ _ _ _ s). }
  destruct (base64.DecodeString (Secret_Message s)) as [secret [e |]] eqn:Hd.
  { rewrite (Reveal_decode_error id ip w Hid s Hq Hs Hip secret e Hd).
    now apply (out_decode_error _ _ _ _ s secret e). }
  destruct (string_dec secret "") as [-> | Hne].
  { rewrite (Reveal_decode_empty id ip w Hid s Hq Hs Hip Hd).
    now apply (out_decode_empty _ _ _ _ s). }
  destruct (coming 1 w) as [code |] eqn:Hdel.
  - rewrite (Reveal_delete_fails id ip w Hid s Hq Hs Hip secret Hd Hne code Hdel).
    now apply (out_delete_failed _ _ _ _ s secret code).
  - rewrite (Reveal_discloses id ip w Hid s Hq Hs Hip secret Hd Hne Hdel).
    now apply (out_disclosed _ _ _ _ s secret).
Qed.

(** ** Reveal: the destructive mode *)

Lemma decode_empty_payload : base64.DecodeString "" = ("", None).
Proof. reflexivity. Qed.

Lemma deletes_looked_up (id : string) (w : World) :
  deletes (calls (looked_up id w)) = deletes (calls w).
Proof. reflexivity. Qed.

Lemma deletes_deleted (id : string) (w : World) :
  deletes (calls (deleted id w)) = S (deletes (calls w)).
Proof. reflexivity. Qed.

Lemma deletes_delete_failed (id : string) (w : World) :
  deletes (calls (delete_failed id w)) = S (deletes (calls w)).
Proof. reflexivity. Qed.

(** A call that ends without error in destructive mode went all the way
    through the decoding and the delete. *)
Lemma Reveal_success_inv (id ip : string) (w : World)
    (r : Revealed) (w' : World) :
  Reveal id ip true w = ((r, None), w') ->
  exists (s : Secret) (secret : string),
    table w !! id = Some s
    /\ base64.DecodeString (Secret_Message s) = (secret, None)
    /\ secret <> ""
    /\ coming 1 w = None
    /\ r = disclosed s
    /\ w' = deleted id w.
Proof.
  intros HR. pose proof (Reveal_outcome id ip true w) as Ho.
  rewrite HR in Ho. inversion Ho; subst; try discriminate.
  exists s, secret. repeat split; assumption.
Qed.

(** A call that reaches the delete has decoded the payload before. *)
Lemma Reveal_delete_inv (id ip : string) (reveal : bool) (w : World) :
  deletes (calls (snd (Reveal id ip reveal w))) <> deletes (calls w) ->
  reveal = true
  /\ exists (s : Secret) (secret : string),
       table w !! id = Some s
       /\ base64.DecodeString (Secret_Message s) = (secret, None)
       /\ secret <> "".
Proof.
  intros Hd. pose proof (Reveal_outcome id ip reveal w) as Ho.
  destruct (Reveal id ip reveal w) as [[r err] w'].
  cbn [snd] in Hd.
  inversion Ho; subst;
    try (exfalso; apply Hd; reflexivity);
    (split; [reflexivity | exists s, secret; repeat split; assumption]).
Qed.

(** C2. In destructive mode, when the stored payload decodes to a
    non-empty result and the delete then fails, [Reveal] returns the error
    of the store as it is, with an empty response: its [Secret] field is
    empty.  More generally a response carries a payload only when the
    delete was made and did not fail. *)
Theorem Reveal_failed_delete_suppresses_payload
    (id ip : string) (w : World) :
  (forall (s : Secret) (secret code : string),
      well_formed id ->
      coming 0 w = None ->
      table w !! id = Some s ->
      origin_ok s ip ->
      base64.DecodeString (Secret_Message s) = (secret, None) ->
      secret <> "" ->
      coming 1 w = Some code ->
      let '((revealed, err), w') := Reveal id ip true w in
      err = Some (awserr code)
      /\ Revealed_Secret revealed = ""
      /\ revealed = Revealed_zero
      /\ calls w' = DeleteItem id :: Query id :: calls w)
  /\
  (forall (reveal : bool),
      let '((revealed, err), w') := Reveal id ip reveal w in
      Revealed_Secret revealed <> "" ->
      err = None
      /\ coming 1 w = None
      /\ calls w' = DeleteItem id :: Query id :: calls w
      /\ table w' = delete id (table w)).
Proof.
  split.
  - intros s secret code Hid Hq Hs Hip Hd Hne Hdel.
    rewrite (Reveal_delete_fails id ip w Hid s Hq Hs Hip secret Hd Hne code Hdel).
    repeat split.
  - intros reveal. pose proof (Reveal_outcome id ip reveal w) as Ho.
    destruct (Reveal id ip reveal w) as [[r err] w'].
    inversion Ho; subst; intros Hsecret;
      try (exfalso; apply Hsecret; reflexivity).
    + exfalso. apply Hsecret.
      destruct (String.eqb (Secret_Secret s) id); reflexivity.
    + repeat split; assumption.
Qed.

(** Facts about the sample data. *)
Lemma Sample_id_well_formed : well_formed Sample.id.
Proof. split; reflexivity. Defined.

Lemma Sample_stored_lookup :
  table Sample.stored !! Sample.id = Some Sample.record.
Proof. apply lookup_singleton_eq. Defined.

Lemma Sample_failing_delete_lookup :
  table Sample.failing_delete !! Sample.id = Some Sample.record.
Proof. apply lookup_singleton_eq. Defined.

Lemma Sample_stored_bound_lookup :
  table Sample.stored_bound !! Sample.id = Some Sample.bound.
Proof. apply lookup_singleton_eq. Defined.

Lemma Sample_hello_not_empty : "hello" <> "".
Proof. discriminate. Defined.

Lemma Sample_garbled_lookup :
  table Sample.stored_garbled !! Sample.id = Some Sample.garbled.
Proof. apply lookup_singleton_eq. Defined.

Lemma Reveal_failed_delete_suppresses_payload_witness :
  let '((revealed, err), w') :=
    Reveal Sample.id "10.0.0.1" true Sample.failing_delete in
  err = Some (awserr "InternalServerError")
  /\ Revealed_Secret revealed = ""
  /\ revealed = Revealed_zero
  /\ calls w' = DeleteItem Sample.id :: Query Sample.id
                :: calls Sample.failing_delete.
Proof.
  apply (proj1 (Reveal_failed_delete_suppresses_payload
                  Sample.id "10.0.0.1" Sample.failing_delete)
               Sample.record "hello" "InternalServerError").
  - exact Sample_id_well_formed.
  - reflexivity.
  - exact Sample_failing_delete_lookup.
  - left. reflexivity.
  - reflexivity.
  - exact Sample_hello_not_empty.
  - reflexivity.
Defined.

(** C3. In destructive mode, for a record that was looked up and passed
    the origin check: if the decoding of its payload fails or gives an
    empty result, [Reveal] fails with a decoding error and makes no delete
    call; a delete call is only ever made after the payload decoded to a
    non-empty result; and a call that ends without error made exactly one
    delete call and returns [Exists] = true with a non-empty payload. *)
Theorem Reveal_decodes_before_delete (id ip : string) (w : World) :
  (forall s : Secret,
      well_formed id ->
      coming 0 w = None ->
      table w !! id = Some s ->
      origin_ok s ip ->
      snd (base64.DecodeString (Secret_Message s)) <> None
      \/ fst (base64.DecodeString (Secret_Message s)) = "" ->
      let '((revealed, err), w') := Reveal id ip true w in
      DecodeError err
      /\ revealed = Revealed_zero
      /\ deletes (calls w') = deletes (calls w)
      /\ calls w' = Query id :: calls w
      /\ table w' = table w)
  /\
  (deletes (calls (snd (Reveal id ip true w))) <> deletes (calls w) ->
   exists (s : Secret) (secret : string),
     table w !! id = Some s
     /\ base64.DecodeString (Secret_Message s) = (secret, None)
     /\ secret <> "")
  /\
  (forall (revealed : Revealed) (w' : World),
      Reveal id ip true w = ((revealed, None), w') ->
      deletes (calls w') = S (deletes (calls w))
      /\ Revealed_Exists revealed = true
      /\ Revealed_Secret revealed <> ""
      /\ exists secret : string,
           base64.DecodeString (Revealed_Secret revealed) = (secret, None)
           /\ secret <> "").
Proof.
  split; [| split].
  - intros s Hid Hq Hs Hip Hbad.
    destruct (base64.DecodeString (Secret_Message s)) as [secret [e |]] eqn:Hd.
    + rewrite (Reveal_decode_error id ip w Hid s Hq Hs Hip secret e Hd).
      repeat split.
      exists (" " ++ base64.CorruptInputError_Error e). reflexivity.
    + cbn in Hbad. destruct Hbad as [Hbad | ->]; [contradiction |].
      rewrite (Reveal_decode_empty id ip w Hid s Hq Hs Hip Hd).
      repeat split.
      exists ", got 0 chars and error: <nil>". reflexivity.
  - intros Hdel. now apply Reveal_delete_inv in Hdel as [_ H].
  - intros revealed w' HR.
    apply Reveal_success_inv in HR
      as (s & secret & Hs & Hd & Hne & Hdel & -> & ->).
    split; [reflexivity |]. split; [reflexivity |]. cbn. split.
    + intros Hempty. rewrite Hempty, decode_empty_payload in Hd.
      apply Hne. congruence.
    + exists secret. split; assumption.
Qed.

Lemma Reveal_decodes_before_delete_witness :
  (let '((revealed, err), w') :=
     Reveal Sample.id "10.0.0.1" true Sample.stored_garbled in
   DecodeError err
   /\ revealed = Revealed_zero
   /\ deletes (calls w') = deletes (calls Sample.stored_garbled)
   /\ calls w' = Query Sample.id :: calls Sample.stored_garbled
   /\ table w' = table Sample.stored_garbled)
  /\
  (deletes (calls (deleted Sample.id Sample.stored))
   = S (deletes (calls Sample.stored))
   /\ Revealed_Exists (disclosed Sample.record) = true
   /\ Revealed_Secret (disclosed Sample.record) <> ""
   /\ exists secret : string,
        base64.DecodeString (Revealed_Secret (disclosed Sample.record))
        = (secret, None)
        /\ secret <> "").
Proof.
  split.
  - apply (proj1 (Reveal_decodes_before_delete
                    Sample.id "10.0.0.1" Sample.stored_garbled)
                 Sample.garbled).
    + exact Sample_id_well_formed.
    + reflexivity.
    + exact Sample_garbled_lookup.
    + left. reflexivity.
    + left. discriminate.
  - apply (proj2 (proj2 (Reveal_decodes_before_delete
                           Sample.id "10.0.0.1" Sample.stored))
                 (disclosed Sample.record) (deleted Sample.id Sample.stored)).
    apply (Reveal_discloses Sample.id "10.0.0.1" Sample.stored
             Sample_id_well_formed Sample.record eq_refl
             Sample_stored_lookup (or_introl eq_refl)
             "hello" eq_refl Sample_hello_not_empty eq_refl).
Defined.

(** ** Reveal: absence and origin mismatch *)

(** C4 fails on the code: for the identifier [0123456789abcdef], a store
    without the record makes [Reveal] return the error "no items found",
    and a store whose record is bound to 10.0.0.1 makes [Reveal] called
    from 10.0.0.2 return the error "not found"; the two errors have
    different texts. *)
Theorem absent_and_mismatch_errors_differ :
  Reveal Sample.id "10.0.0.2" true Sample.empty
  = ((Revealed_zero, Some (errors_New "no items found")),
     looked_up Sample.id Sample.empty)
  /\ Reveal Sample.id "10.0.0.2" true Sample.stored_bound
     = ((Revealed_zero, Some (errors_New "not found")),
        looked_up Sample.id Sample.stored_bound)
  /\ Error (errors_New "no items found") <> Error (errors_New "not found").
Proof.
  split; [| split].
  - apply Reveal_absent;
      [exact Sample_id_well_formed | reflexivity | apply lookup_empty].
  - apply (Reveal_origin_mismatch Sample.id "10.0.0.2" Sample.stored_bound
             Sample_id_well_formed Sample.bound eq_refl
             Sample_stored_bound_lookup).
    intros [H | H]; discriminate H.
  - discriminate.
Qed.

(** ** Reveal: the existence check *)

(** C5. With [reveal] = false, [Reveal] never changes the table and makes
    no delete nor any other mutating call; when the call passes the guard,
    the lookup and the origin check, it makes the lookup alone and returns
    no error and no payload, with [Exists] = true if the identifier of the
    record found equals the one requested and [Exists] = false
    otherwise. *)
Theorem Reveal_existence_check_is_read_only (id ip : string) (w : World) :
  (table (snd (Reveal id ip false w)) = table w
   /\ deletes (calls (snd (Reveal id ip false w))) = deletes (calls w)
   /\ mutations (calls (snd (Reveal id ip false w))) = mutations (calls w))
  /\
  (forall s : Secret,
      well_formed id ->
      coming 0 w = None ->
      table w !! id = Some s ->
      origin_ok s ip ->
      let '((revealed, err), w') := Reveal id ip false w in
      calls w' = Query id :: calls w
      /\ err = None
      /\ Revealed_Secret revealed = ""
      /\ (Secret_Secret s = id -> Revealed_Exists revealed = true)
      /\ (Secret_Secret s <> id -> Revealed_Exists revealed = false)).
Proof.
  split.
  - pose proof (Reveal_outcome id ip false w) as Ho.
    destruct (Reveal id ip false w) as [[r err] w'].
    inversion Ho; subst; try discriminate; repeat split.
  - intros s Hid Hq Hs Hip.
    rewrite (Reveal_exists_only id ip w Hid s Hq Hs Hip).
    destruct (String.eqb_spec (Secret_Secret s) id) as [He | Hne];
      repeat split; try reflexivity; intros H; congruence.
Qed.

Lemma Reveal_existence_check_is_read_only_witness :
  let '((revealed, err), w') :=
    Reveal Sample.id "10.0.0.1" false Sample.stored in
  calls w' = Query Sample.id :: calls Sample.stored
  /\ err = None
  /\ Revealed_Secret revealed = ""
  /\ (Secret_Secret Sample.record = Sample.id
      -> Revealed_Exists revealed = true)
  /\ (Secret_Secret Sample.record <> Sample.id
      -> Revealed_Exists revealed = false).
Proof.
  apply (proj2 (Reveal_existence_check_is_read_only
                  Sample.id "10.0.0.1" Sample.stored) Sample.record).
  - exact Sample_id_well_formed.
  - reflexivity.
  - exact Sample_stored_lookup.
  - left. reflexivity.
Defined.

(** ** Deposit, reveal, reveal again *)

Lemma coming_tl (k : nat) (w : World) (t : gmap string Secret)
    (c : list Call) :
  coming k (mkWorld t (List.tl (faults w)) c) = coming (S k) w.
Proof.
  unfold coming. cbn. destruct (faults w) as [| f fs]; [| reflexivity].
  now destruct k.
Qed.

Lemma coming_tl_tl (k : nat) (w : World) (t : gmap string Secret)
    (c : list Call) :
  coming k (mkWorld t (List.tl (List.tl (faults w))) c) = coming (S (S k)) w.
Proof.
  unfold coming. cbn. destruct (faults w) as [| f [| g fs]]; try reflexivity.
  - now destruct k.
  - now destruct k.
Qed.

Lemma saved_Secret (now : Z) (P : string) (s : Secret) :
  Secret_Secret (saved now P s) = Secret_Secret s.
Proof. unfold saved. destruct (Secret_Expire s =? 0); reflexivity. Qed.

Lemma saved_Ip (now : Z) (P : string) (s : Secret) :
  Secret_Ip (saved now P s) = Secret_Ip s.
Proof. unfold saved. destruct (Secret_Expire s =? 0); reflexivity. Qed.

Lemma saved_Message (now : Z) (P : string) (s : Secret) :
  Secret_Message (saved now P s) = P.
Proof. reflexivity. Qed.

(** C1, as stated, fails: [Save] accepts any string, and [Reveal] gives
    back only payloads that decode.  The payloads "hunter2" (not base64)
    and "" (decoding to nothing), deposited under a well-formed identifier
    in a healthy store, are stored without error and then refused by
    [Reveal] with a decoding error; nothing is returned and the record
    stays in the table. *)
Lemma undecodable_payload_is_not_revealed :
  (let '((_, err1), w1) :=
     Save 1700000000 "hunter2"
          (NewSecret 1700000000 (Sample.id, None)) Sample.empty in
   let '((revealed, err2), w2) := Reveal Sample.id "10.0.0.1" true w1 in
   err1 = None
   /\ err2 = Some (errors_New
        "could not decode secret illegal base64 data at input byte 4")
   /\ Revealed_Secret revealed <> "hunter2"
   /\ Revealed_Exists revealed = false
   /\ Secret_Message <$> (table w2 !! Sample.id) = Some "hunter2")
  /\
  (let '((_, err1), w1) :=
     Save 1700000000 ""
          (NewSecret 1700000000 (Sample.id, None)) Sample.empty in
   let '((revealed, err2), w2) := Reveal Sample.id "10.0.0.1" true w1 in
   err1 = None
   /\ err2 = Some (errors_New
        "could not decode secret, got 0 chars and error: <nil>")
   /\ Revealed_Exists revealed = false
   /\ Secret_Message <$> (table w2 !! Sample.id) = Some "").
Proof.
  split.
  - rewrite Save_stores by reflexivity.
    erewrite Reveal_decode_error;
      [ | exact Sample_id_well_formed | reflexivity
        | apply lookup_insert_eq | left; reflexivity | reflexivity ].
    cbn [looked_up table]. rewrite lookup_insert_eq.
    repeat split. discriminate.
  - rewrite Save_stores by reflexivity.
    erewrite Reveal_decode_empty;
      [ | exact Sample_id_well_formed | reflexivity
        | apply lookup_insert_eq | left; reflexivity | reflexivity ].
    cbn [looked_up table]. rewrite lookup_insert_eq.
    repeat split.
Qed.

(** C1, amended. Let [P] be a payload that decodes, as standard base64,
    to a non-empty result, and let the record carry a well-formed
    identifier [I] and an origin that is empty or the requester's.  If the
    store fails none of the four calls, [Save P] succeeds, the first
    [Reveal I] with [reveal] = true returns [P] itself (the encoded
    payload) with [Exists] = true, and a second such [Reveal], from any
    address, fails with the error "no items found". *)
Theorem Save_then_Reveal_once
    (now : Z) (P : string) (s : Secret) (ip ip' : string) (w : World)
    (secret : string) :
  well_formed (Secret_Secret s) ->
  origin_ok s ip ->
  base64.DecodeString P = (secret, None) ->
  secret <> "" ->
  (forall k : nat, (k < 4)%nat -> coming k w = None) ->
  let '((_, err1), w1) := Save now P s w in
  let '((first, err2), w2) := Reveal (Secret_Secret s) ip true w1 in
  let '((second, err3), w3) := Reveal (Secret_Secret s) ip' true w2 in
  err1 = None
  /\ err2 = None
  /\ Revealed_Secret first = P
  /\ Revealed_Exists first = true
  /\ base64.DecodeString (Revealed_Secret first) = (secret, None)
  /\ err3 = Some (errors_New "no items found")
  /\ second = Revealed_zero
  /\ table w3 !! Secret_Secret s = None.
Proof.
  intros Hid Hip Hd Hne Hok.
  rewrite Save_stores by (rewrite coming_0; apply Hok; lia).
  set (w1 := mkWorld _ _ _).
  assert (H1 : Reveal (Secret_Secret s) ip true w1
               = ((disclosed (saved now P s), None),
                  deleted (Secret_Secret s) w1)).
  { apply (Reveal_discloses (Secret_Secret s) ip w1 Hid (saved now P s))
      with (secret := secret).
    - unfold w1. rewrite coming_tl. apply Hok. lia.
    - apply lookup_insert_eq.
    - unfold origin_ok. now rewrite saved_Ip.
    - exact Hd.
    - exact Hne.
    - unfold w1. rewrite coming_tl. apply Hok. lia. }
  rewrite H1.
  assert (H2 : Reveal (Secret_Secret s) ip' true (deleted (Secret_Secret s) w1)
               = ((Revealed_zero, Some (errors_New "no items found")),
                  looked_up (Secret_Secret s) (deleted (Secret_Secret s) w1))).
  { apply Reveal_absent.
    - exact Hid.
    - unfold deleted. rewrite coming_tl_tl. unfold w1. rewrite coming_tl.
      apply Hok. lia.
    - apply lookup_delete_eq. }
  rewrite H2.
  repeat split; try assumption. apply lookup_delete_eq.
Qed.

Lemma Save_then_Reveal_once_witness :
  let '((_, err1), w1) :=
    Save 1700000000 "aGVsbG8="
         (NewSecret 1700000000 (Sample.id, None)) Sample.empty in
  let '((first, err2), w2) := Reveal Sample.id "10.0.0.1" true w1 in
  let '((second, err3), w3) := Reveal Sample.id "10.0.0.9" true w2 in
  err1 = None
  /\ err2 = None
  /\ Revealed_Secret first = "aGVsbG8="
  /\ Revealed_Exists first = true
  /\ base64.DecodeString (Revealed_Secret first) = ("hello", None)
  /\ err3 = Some (errors_New "no items found")
  /\ second = Revealed_zero
  /\ table w3 !! Sample.id = None.
Proof.
  apply (Save_then_Reveal_once 1700000000 "aGVsbG8="
           (NewSecret 1700000000 (Sample.id, None))
           "10.0.0.1" "10.0.0.9" Sample.empty "hello").
  - exact Sample_id_well_formed.
  - left. reflexivity.
  - reflexivity.
  - exact Sample_hello_not_empty.
  - intros k Hk. unfold coming. cbn. now destruct k.
Defined.

(** * Further properties of the code *)

(** ** The guard of Reveal, exactly *)

Lemma accepted_id_well_formed (id : string) :
  accepted_id id = true <-> well_formed id.
Proof.
  unfold accepted_id, well_formed.
  rewrite andb_true_iff, Nat.eqb_eq, forallb_forall, MatchString_false.
  split; intros [Hlen Hall]; (split; [exact Hlen |]); intros c Hc.
  - rewrite notHex_char. apply negb_false_iff. now apply Hall.
  - specialize (Hall c Hc). rewrite notHex_char in Hall.
    now apply negb_false_iff in Hall.
Qed.

Lemma rejected_id_not_well_formed (id : string) :
  accepted_id id = false <-> ~ well_formed id.
Proof.
  rewrite <- accepted_id_well_formed. now destruct (accepted_id id).
Qed.

(** X1. The guard of [Reveal] accepts exactly the identifiers of 16 bytes
    that are each a digit, one of [a-f] or an underscore: for these the
    first store call is the lookup, and for every other string the call
    ends at once with "bad id" and the world untouched.  The error "bad
    id" is returned for the rejected identifiers and for no other. *)
Theorem Reveal_guard_exact (id ip : string) (reveal : bool) (w : World) :
  (if accepted_id id
   then reaches_lookup id ip reveal w
   else Reveal id ip reveal w = ((Revealed_zero, Some (errors_New "bad id")), w))
  /\ (snd (fst (Reveal id ip reveal w)) = Some (errors_New "bad id")
      <-> accepted_id id = false).
Proof.
  destruct (accepted_id id) eqn:Hacc.
  - apply accepted_id_well_formed in Hacc as [Hlen Hre].
    pose proof (Reveal_guard_passes id ip reveal w Hlen Hre) as Hgo.
    split; [exact Hgo |]. split; [| discriminate].
    intros Hbad. now destruct Hgo as [Hne _].
  - apply rejected_id_not_well_formed, not_well_formed in Hacc.
    rewrite (Reveal_guard_fails id ip reveal w Hacc). now repeat split.
Qed.

(** ** What a call of Reveal can and cannot do *)

Lemma bool_eqb_exists (s : Secret) (id : string) :
  (if String.eqb (Secret_Secret s) id
   then set_Exists true Revealed_zero else Revealed_zero)
  = mkRevealed "" (String.eqb (Secret_Secret s) id) false "" "" "" "" "".
Proof. now destruct (String.eqb (Secret_Secret s) id). Qed.

(** X2. A call of [Reveal] never returns data next to an error: whenever
    the error is not nil the response is the zero value, so [Exists] is
    false and every text field is empty.  A payload comes with [Exists] =
    true, and [Exists] = true comes with a nil error.  An existence check
    returns at most the [Exists] flag: no payload, hint, password flag,
    tag or initialisation vector. *)
Theorem Reveal_error_means_empty_response
    (id ip : string) (reveal : bool) (w : World) :
  let '((revealed, err), _) := Reveal id ip reveal w in
  (err <> None -> revealed = Revealed_zero)
  /\ (Revealed_Exists revealed = true -> err = None)
  /\ (Revealed_Secret revealed <> "" -> Revealed_Exists revealed = true)
  /\ (reveal = false ->
      revealed = Revealed_zero \/ revealed = set_Exists true Revealed_zero).
Proof.
  pose proof (Reveal_outcome id ip reveal w) as Ho.
  destruct (Reveal id ip reveal w) as [[r err] w'].
  inversion Ho; subst; repeat split;
    try reflexivity; try discriminate; try congruence; try (now left).
  all: try (rewrite bool_eqb_exists; cbn; congruence).
  all: try (intros _; destruct (String.eqb (Secret_Secret s) id); tauto).
  all: intros Hpayload; exfalso; apply Hpayload; reflexivity.
Qed.

(** X3. The footprint of [Reveal].  A call makes no store call, or the
    lookup alone, or the lookup followed by one delete of the identifier it
    was given; it never writes an item.  Items under other keys are never
    touched, and the table changes, by losing the item under [id], only
    when the call is a destructive one that ends without error. *)
Theorem Reveal_footprint (id ip : string) (reveal : bool) (w : World) :
  let '((_, err), w') := Reveal id ip reveal w in
  (calls w' = calls w
   \/ calls w' = Query id :: calls w
   \/ calls w' = DeleteItem id :: Query id :: calls w)
  /\ (forall k : string, k <> id -> table w' !! k = table w !! k)
  /\ (table w' = table w
      \/ (table w' = delete id (table w) /\ reveal = true /\ err = None))
  /\ (err <> None -> table w' = table w).
Proof.
  pose proof (Reveal_outcome id ip reveal w) as Ho.
  destruct (Reveal id ip reveal w) as [[r err] w'].
  inversion Ho; subst; cbn [looked_up delete_failed deleted calls table];
    (split; [tauto |]); (split; [| split]);
    try (intros k Hk; first [reflexivity | now apply lookup_delete_ne]);
    try (now left); try congruence.
  right. now repeat split.
Qed.

(** X4. When the lookup fails, in either mode, [Reveal] hands the error of
    the store back as it is, with an empty response; the lookup is the only
    store call made and the table is as it was. *)
Theorem Reveal_lookup_error_is_passed_on
    (id ip : string) (reveal : bool) (w : World) (code : string) :
  well_formed id ->
  coming 0 w = Some code ->
  let '((revealed, err), w') := Reveal id ip reveal w in
  err = Some (awserr code)
  /\ revealed = Revealed_zero
  /\ calls w' = Query id :: calls w
  /\ table w' = table w.
Proof.
  intros Hid Hq. rewrite (Reveal_lookup_fails id ip w Hid reveal code Hq).
  now repeat split.
Qed.

Lemma Reveal_lookup_error_is_passed_on_witness :
  let '((revealed, err), w') :=
    Reveal Sample.id "10.0.0.1" true Sample.failing_lookup in
  err = Some (awserr "ProvisionedThroughputExceededException")
  /\ revealed = Revealed_zero
  /\ calls w' = Query Sample.id :: calls Sample.failing_lookup
  /\ table w' = table Sample.failing_lookup.
Proof.
  apply (Reveal_lookup_error_is_passed_on Sample.id "10.0.0.1" true
           Sample.failing_lookup "ProvisionedThroughputExceededException").
  - exact Sample_id_well_formed.
  - reflexivity.
Defined.

(** ** Deposits followed by reveals *)

Lemma coming_looked_up (k : nat) (id : string) (w : World) :
  coming k (looked_up id w) = coming (S k) w.
Proof. apply coming_tl. Qed.

Lemma coming_deleted (k : nat) (id : string) (w : World) :
  coming k (deleted id w) = coming (S (S k)) w.
Proof. apply coming_tl_tl. Qed.

Lemma coming_delete_failed (k : nat) (id : string) (w : World) :
  coming k (delete_failed id w) = coming (S (S k)) w.
Proof. apply coming_tl_tl. Qed.

Lemma coming_with_item (k : nat) (id : string) (s : Secret) (w : World) :
  coming k (with_item id s w) = coming k w.
Proof. reflexivity. Qed.

Create Rewrite HintDb coming.

#[local] Hint Rewrite coming_looked_up coming_deleted coming_delete_failed
  coming_tl coming_tl_tl coming_with_item : coming.

(** The side conditions on the pending outcomes of the store. *)
Ltac healthy Hok := autorewrite with coming; apply Hok; lia.

(** A successful deposit followed by a destructive reveal from an address
    that passes the origin check. *)
Lemma Save_then_Reveal
    (now : Z) (P : string) (s : Secret) (ip : string) (w : World)
    (secret : string) :
  well_formed (Secret_Secret s) ->
  origin_ok s ip ->
  base64.DecodeString P = (secret, None) ->
  secret <> "" ->
  coming 0 w = None -> coming 1 w = None -> coming 2 w = None ->
  exists w1 : World,
    Save now P s w = ((saved now P s, None), w1)
    /\ table w1 = <[Secret_Secret s := saved now P s]> (table w)
    /\ (forall k, coming k w1 = coming (S k) w)
    /\ calls w1 = PutItem (saved now P s) :: calls w
    /\ Reveal (Secret_Secret s) ip true w1
       = ((disclosed (saved now P s), None), deleted (Secret_Secret s) w1).
Proof.
  intros Hid Hip Hd Hne H0 H1 H2.
  rewrite Save_stores by now rewrite coming_0.
  eexists. split; [reflexivity |]. split; [reflexivity |].
  split; [intros k; apply coming_tl |]. split; [reflexivity |].
  apply (Reveal_discloses (Secret_Secret s) ip _ Hid (saved now P s))
    with (secret := secret).
  - now rewrite coming_tl.
  - apply lookup_insert_eq.
  - unfold origin_ok. now rewrite saved_Ip.
  - exact Hd.
  - exact Hne.
  - now rewrite coming_tl.
Qed.

(** X5. Origin binding.  A record deposited with a non-empty origin
    address is hidden from every other address: a reveal from elsewhere,
    destructive or not, fails with "not found", returns nothing, makes no
    delete and leaves the record in the table.  After such attempts a
    destructive reveal from the recorded address still returns the
    payload. *)
Theorem Reveal_is_bound_to_origin
    (now : Z) (P : string) (s : Secret) (other : string) (w : World)
    (secret : string) :
  well_formed (Secret_Secret s) ->
  Secret_Ip s <> "" ->
  other <> Secret_Ip s ->
  base64.DecodeString P = (secret, None) ->
  secret <> "" ->
  (forall k : nat, (k < 5)%nat -> coming k w = None) ->
  let '((_, err1), w1) := Save now P s w in
  let '((r2, err2), w2) := Reveal (Secret_Secret s) other true w1 in
  let '((r3, err3), w3) := Reveal (Secret_Secret s) other false w2 in
  let '((r4, err4), _) := Reveal (Secret_Secret s) (Secret_Ip s) true w3 in
  err1 = None
  /\ err2 = Some (errors_New "not found") /\ r2 = Revealed_zero
  /\ err3 = Some (errors_New "not found") /\ r3 = Revealed_zero
  /\ table w3 = table w1
  /\ deletes (calls w3) = deletes (calls w1)
  /\ err4 = None
  /\ Revealed_Secret r4 = P
  /\ Revealed_Exists r4 = true.
Proof.
  intros Hid Hbound Hother Hd Hne Hok.
  rewrite Save_stores by (rewrite coming_0; apply Hok; lia).
  set (w1 := mkWorld _ _ _).
  assert (Hs1 : table w1 !! Secret_Secret s = Some (saved now P s))
    by apply lookup_insert_eq.
  assert (Hno : ~ origin_ok (saved now P s) other).
  { unfold origin_ok. rewrite saved_Ip. intros [H | H]; congruence. }
  rewrite (Reveal_origin_mismatch (Secret_Secret s) other w1 Hid
             (saved now P s)); [| unfold w1; healthy Hok | exact Hs1 | exact Hno].
  rewrite (Reveal_origin_mismatch (Secret_Secret s) other
             (looked_up (Secret_Secret s) w1) Hid (saved now P s));
    [| unfold w1; healthy Hok | exact Hs1 | exact Hno].
  rewrite (Reveal_discloses (Secret_Secret s) (Secret_Ip s)
             (looked_up (Secret_Secret s) (looked_up (Secret_Secret s) w1))
             Hid (saved now P s)) with (secret := secret);
    [ now repeat split
    | unfold w1; healthy Hok
    | exact Hs1
    | right; apply saved_Ip
    | exact Hd
    | exact Hne
    | unfold w1; healthy Hok ].
Qed.

Lemma Reveal_is_bound_to_origin_witness :
  let '((_, err1), w1) :=
    Save 1700000000 "aGVsbG8=" Sample.bound Sample.empty in
  let '((r2, err2), w2) := Reveal Sample.id "10.0.0.2" true w1 in
  let '((r3, err3), w3) := Reveal Sample.id "10.0.0.2" false w2 in
  let '((r4, err4), _) := Reveal Sample.id "10.0.0.1" true w3 in
  err1 = None
  /\ err2 = Some (errors_New "not found") /\ r2 = Revealed_zero
  /\ err3 = Some (errors_New "not found") /\ r3 = Revealed_zero
  /\ table w3 = table w1
  /\ deletes (calls w3) = deletes (calls w1)
  /\ err4 = None
  /\ Revealed_Secret r4 = "aGVsbG8="
  /\ Revealed_Exists r4 = true.
Proof.
  apply (Reveal_is_bound_to_origin 1700000000 "aGVsbG8=" Sample.bound
           "10.0.0.2" Sample.empty "hello").
  - exact Sample_id_well_formed.
  - discriminate.
  - discriminate.
  - reflexivity.
  - exact Sample_hello_not_empty.
  - intros k Hk. unfold coming. cbn. now destruct k.
Defined.

(** X6. What a successful reveal of a deposit returns: the payload as it
    was given to [Save], [Exists] = true, and the flag, hint, tags and
    initialisation vectors of the deposited record, each unchanged.  The
    item is gone from the table afterwards and the other items are as they
    were before the deposit. *)
Theorem Reveal_returns_the_deposit
    (now : Z) (P : string) (s : Secret) (ip : string) (w : World)
    (secret : string) :
  well_formed (Secret_Secret s) ->
  origin_ok s ip ->
  base64.DecodeString P = (secret, None) ->
  secret <> "" ->
  (forall k : nat, (k < 3)%nat -> coming k w = None) ->
  let '((_, _), w1) := Save now P s w in
  let '((revealed, err), w2) := Reveal (Secret_Secret s) ip true w1 in
  err = None
  /\ revealed = mkRevealed P true (Secret_HasPass s) (Secret_Hint s)
                           (Secret_Tag s) (Secret_Iv s)
                           (Secret_PwTag s) (Secret_PwIv s)
  /\ table w2 !! Secret_Secret s = None
  /\ (forall k : string,
        k <> Secret_Secret s -> table w2 !! k = table w !! k)
  /\ calls w2
     = DeleteItem (Secret_Secret s) :: Query (Secret_Secret s)
       :: PutItem (saved now P s) :: calls w.
Proof.
  intros Hid Hip Hd Hne Hok.
  destruct (Save_then_Reveal now P s ip w secret Hid Hip Hd Hne)
    as (w1 & HS & Ht & Hc & Hcalls & HR); try (apply Hok; lia).
  rewrite HS, HR. cbn [deleted table calls]. rewrite Ht, Hcalls.
  split; [reflexivity |]. split.
  { unfold disclosed, saved.
    destruct (Secret_Expire s =? 0); reflexivity. }
  split; [apply lookup_delete_eq |]. split; [| reflexivity].
  intros k Hk. rewrite lookup_delete_ne by congruence.
  apply lookup_insert_ne. congruence.
Qed.

Lemma Reveal_returns_the_deposit_witness :
  let '((_, _), w1) :=
    Save 1700000000 "aGVsbG8=" Sample.record Sample.empty in
  let '((revealed, err), w2) := Reveal Sample.id "10.0.0.1" true w1 in
  err = None
  /\ revealed = mkRevealed "aGVsbG8=" true (Secret_HasPass Sample.record)
                           (Secret_Hint Sample.record)
                           (Secret_Tag Sample.record) (Secret_Iv Sample.record)
                           (Secret_PwTag Sample.record)
                           (Secret_PwIv Sample.record)
  /\ table w2 !! Sample.id = None
  /\ (forall k : string,
        k <> Sample.id -> table w2 !! k = table Sample.empty !! k)
  /\ calls w2
     = DeleteItem Sample.id :: Query Sample.id
       :: PutItem (saved 1700000000 "aGVsbG8=" Sample.record)
       :: calls Sample.empty.
Proof.
  apply (Reveal_returns_the_deposit 1700000000 "aGVsbG8=" Sample.record
           "10.0.0.1" Sample.empty "hello").
  - exact Sample_id_well_formed.
  - left. reflexivity.
  - reflexivity.
  - exact Sample_hello_not_empty.
  - intros k Hk. unfold coming. cbn. now destruct k.
Defined.

(** ** Existence checks, and what follows a reveal *)

Section Checks.
Variables (id ip : string) (s : Secret).
Hypothesis Hid : well_formed id.
Hypothesis Hip : origin_ok s ip.

Lemma check_times_world (n : nat) :
  forall w : World,
    table w !! id = Some s ->
    (forall k : nat, (k < n)%nat -> coming k w = None) ->
    table (check_times n id ip w) = table w
    /\ (forall k : nat, coming k (check_times n id ip w) = coming (n + k) w)
    /\ calls (check_times n id ip w)
       = (List.repeat (Query id) n ++ calls w)%list.
Proof.
  induction n as [| n IH]; intros w Hs Hok.
  - now repeat split.
  - cbn [check_times].
    rewrite (Reveal_exists_only id ip w Hid s) by (try apply Hok; auto; lia).
    cbn [snd].
    destruct (IH (looked_up id w)) as (Ht & Hc & Hl).
    + exact Hs.
    + intros k Hk. rewrite coming_looked_up. apply Hok. lia.
    + rewrite Ht, Hl. split; [reflexivity |]. split.
      * intros k. rewrite Hc, coming_looked_up. reflexivity.
      * cbn [looked_up calls]. replace (S n) with (n + 1)%nat by lia.
        rewrite List.repeat_app, <- List.app_assoc. reflexivity.
Qed.

Lemma deletes_queries (n : nat) (l : list Call) :
  deletes (List.repeat (Query id) n ++ l)%list = deletes l.
Proof. induction n as [| n IH]; [reflexivity | exact IH]. Qed.
End Checks.

(** X7. Existence checks do not consume the secret.  For a record stored
    under its own identifier, any number [n] of checks in a row each
    answer [Exists] = true without error; they make [n] lookups and nothing
    else, the table stays as it was, and a destructive reveal made after
    them still returns the record. *)
Theorem existence_checks_do_not_consume
    (n : nat) (id ip : string) (s : Secret) (w : World) (secret : string) :
  well_formed id ->
  table w !! id = Some s ->
  Secret_Secret s = id ->
  origin_ok s ip ->
  base64.DecodeString (Secret_Message s) = (secret, None) ->
  secret <> "" ->
  (forall k : nat, (k < n + 2)%nat -> coming k w = None) ->
  (forall m : nat, (m <= n)%nat ->
     fst (Reveal id ip false (check_times m id ip w))
     = (set_Exists true Revealed_zero, None))
  /\ table (check_times n id ip w) = table w
  /\ calls (check_times n id ip w)
     = (List.repeat (Query id) n ++ calls w)%list
  /\ deletes (calls (check_times n id ip w)) = deletes (calls w)
  /\ fst (Reveal id ip true (check_times n id ip w)) = (disclosed s, None).
Proof.
  intros Hid Hs Hown Hip Hd Hne Hok.
  assert (Hworld : forall m : nat, (m <= n)%nat ->
            table (check_times m id ip w) !! id = Some s
            /\ coming 0 (check_times m id ip w) = None
            /\ coming 1 (check_times m id ip w) = None).
  { intros m Hm.
    destruct (check_times_world id ip s Hid Hip m w Hs) as (Ht & Hc & _).
    - intros k Hk. apply Hok. lia.
    - rewrite Ht, !Hc. repeat split; [exact Hs | apply Hok; lia ..]. }
  destruct (check_times_world id ip s Hid Hip n w Hs) as (Ht & Hc & Hl).
  { intros k Hk. apply Hok. lia. }
  split; [| split; [exact Ht | split; [exact Hl | split]]].
  - intros m Hm. destruct (Hworld m Hm) as (Hsm & H0 & _).
    rewrite (Reveal_exists_only id ip _ Hid s H0 Hsm Hip).
    cbn [fst]. rewrite Hown, String.eqb_refl. reflexivity.
  - rewrite Hl. apply deletes_queries.
  - destruct (Hworld n (Nat.le_refl n)) as (Hsn & H0 & H1).
    now rewrite (Reveal_discloses id ip _ Hid s H0 Hsn Hip secret Hd Hne H1).
Qed.

Lemma existence_checks_do_not_consume_witness :
  (forall m : nat, (m <= 3)%nat ->
     fst (Reveal Sample.id "10.0.0.1" false
            (check_times m Sample.id "10.0.0.1" Sample.stored))
     = (set_Exists true Revealed_zero, None))
  /\ table (check_times 3 Sample.id "10.0.0.1" Sample.stored)
     = table Sample.stored
  /\ calls (check_times 3 Sample.id "10.0.0.1" Sample.stored)
     = (List.repeat (Query Sample.id) 3 ++ calls Sample.stored)%list
  /\ deletes (calls (check_times 3 Sample.id "10.0.0.1" Sample.stored))
     = deletes (calls Sample.stored)
  /\ fst (Reveal Sample.id "10.0.0.1" true
            (check_times 3 Sample.id "10.0.0.1" Sample.stored))
     = (disclosed Sample.record, None).
Proof.
  apply (existence_checks_do_not_consume 3 Sample.id "10.0.0.1"
           Sample.record Sample.stored "hello").
  - exact Sample_id_well_formed.
  - exact Sample_stored_lookup.
  - reflexivity.
  - left. reflexivity.
  - reflexivity.
  - exact Sample_hello_not_empty.
  - intros k Hk. unfold coming. cbn. now destruct k.
Defined.

Lemma Reveal_success_well_formed
    (id ip : string) (reveal : bool) (w : World)
    (revealed : Revealed) (w' : World) :
  Reveal id ip reveal w = ((revealed, None), w') -> well_formed id.
Proof.
  intros HR. pose proof (Reveal_outcome id ip reveal w) as Ho.
  rewrite HR in Ho. inversion Ho; subst; try assumption; discriminate.
Qed.

(** X8. A revealed secret is gone for good.  Once a destructive reveal
    has ended without error, the table holds nothing under the identifier,
    and every later call for it, in either mode and from any address,
    whose lookup the store answers, fails with "no items found" and an
    empty response; an existence check does not answer [Exists] = false
    then, it fails. *)
Theorem revealed_secret_is_gone
    (id ip : string) (w : World) (revealed : Revealed) (w' : World) :
  Reveal id ip true w = ((revealed, None), w') ->
  table w' !! id = None
  /\ forall (ip' : string) (reveal' : bool),
       coming 0 w' = None ->
       Reveal id ip' reveal' w'
       = ((Revealed_zero, Some (errors_New "no items found")),
          looked_up id w')
       /\ table (looked_up id w') !! id = None.
Proof.
  intros HR.
  pose proof (Reveal_success_well_formed id ip true w revealed w' HR) as Hid.
  apply Reveal_success_inv in HR
    as (s & secret & Hs & Hd & Hne & Hdel & -> & ->).
  split; [apply lookup_delete_eq |].
  intros ip' reveal' H0. split; [| apply lookup_delete_eq].
  apply Reveal_absent; [exact Hid | exact H0 | apply lookup_delete_eq].
Qed.

Lemma revealed_secret_is_gone_witness :
  table (deleted Sample.id Sample.stored) !! Sample.id = None
  /\ forall (ip' : string) (reveal' : bool),
       coming 0 (deleted Sample.id Sample.stored) = None ->
       Reveal Sample.id ip' reveal' (deleted Sample.id Sample.stored)
       = ((Revealed_zero, Some (errors_New "no items found")),
          looked_up Sample.id (deleted Sample.id Sample.stored))
       /\ table (looked_up Sample.id (deleted Sample.id Sample.stored))
          !! Sample.id = None.
Proof.
  apply (revealed_secret_is_gone Sample.id "10.0.0.1" Sample.stored
           (disclosed Sample.record) (deleted Sample.id Sample.stored)).
  apply (Reveal_discloses Sample.id "10.0.0.1" Sample.stored
           Sample_id_well_formed Sample.record eq_refl
           Sample_stored_lookup (or_introl eq_refl)
           "hello" eq_refl Sample_hello_not_empty eq_refl).
Defined.

(** ** Records that cannot be decoded *)

Lemma Reveal_undecodable (id ip : string) (s : Secret) :
  well_formed id ->
  origin_ok s ip ->
  snd (base64.DecodeString (Secret_Message s)) <> None
  \/ fst (base64.DecodeString (Secret_Message s)) = "" ->
  exists e : error,
    DecodeError (Some e)
    /\ forall w : World,
         coming 0 w = None ->
         table w !! id = Some s ->
         Reveal id ip true w = ((Revealed_zero, Some e), looked_up id w).
Proof.
  intros Hid Hip Hbad.
  destruct (base64.DecodeString (Secret_Message s)) as [secret [e |]] eqn:Hd.
  - eexists. split.
    + exists (" " ++ base64.CorruptInputError_Error e). reflexivity.
    + intros w H0 Hs.
      apply (Reveal_decode_error id ip w Hid s H0 Hs Hip secret e Hd).
  - cbn in Hbad. destruct Hbad as [Hbad | ->]; [contradiction |].
    eexists. split.
    + exists ", got 0 chars and error: <nil>". reflexivity.
    + intros w H0 Hs.
      apply (Reveal_decode_empty id ip w Hid s H0 Hs Hip Hd).
Qed.

(** X9. A record whose payload does not decode, or decodes to nothing,
    cannot be consumed.  An existence check reports it ([Exists] = true,
    no error: the check does not look at the payload), while every
    destructive reveal fails with the same decoding error, returns
    nothing, makes no delete and leaves the record in the table. *)
Theorem undecodable_record_is_never_consumed
    (id ip : string) (s : Secret) (w : World) :
  well_formed id ->
  table w !! id = Some s ->
  Secret_Secret s = id ->
  origin_ok s ip ->
  snd (base64.DecodeString (Secret_Message s)) <> None
  \/ fst (base64.DecodeString (Secret_Message s)) = "" ->
  (forall k : nat, (k < 3)%nat -> coming k w = None) ->
  let '((r1, err1), w1) := Reveal id ip false w in
  let '((r2, err2), w2) := Reveal id ip true w1 in
  let '((r3, err3), w3) := Reveal id ip true w2 in
  err1 = None /\ Revealed_Exists r1 = true
  /\ DecodeError err2 /\ r2 = Revealed_zero
  /\ err3 = err2 /\ r3 = Revealed_zero
  /\ table w3 = table w
  /\ deletes (calls w3) = deletes (calls w).
Proof.
  intros Hid Hs Hown Hip Hbad Hok.
  destruct (Reveal_undecodable id ip s Hid Hip Hbad) as (e & He & Hrefuse).
  rewrite (Reveal_exists_only id ip w Hid s) by (auto; apply Hok; lia).
  rewrite Hrefuse by (auto; healthy Hok).
  rewrite Hrefuse by (auto; healthy Hok).
  rewrite Hown, String.eqb_refl. now repeat split.
Qed.

Lemma undecodable_record_is_never_consumed_witness :
  let '((r1, err1), w1) :=
    Reveal Sample.id "10.0.0.1" false Sample.stored_garbled in
  let '((r2, err2), w2) := Reveal Sample.id "10.0.0.1" true w1 in
  let '((r3, err3), w3) := Reveal Sample.id "10.0.0.1" true w2 in
  err1 = None /\ Revealed_Exists r1 = true
  /\ DecodeError err2 /\ r2 = Revealed_zero
  /\ err3 = err2 /\ r3 = Revealed_zero
  /\ table w3 = table Sample.stored_garbled
  /\ deletes (calls w3) = deletes (calls Sample.stored_garbled).
Proof.
  apply (undecodable_record_is_never_consumed Sample.id "10.0.0.1"
           Sample.garbled Sample.stored_garbled).
  - exact Sample_id_well_formed.
  - exact Sample_garbled_lookup.
  - reflexivity.
  - left. reflexivity.
  - left. discriminate.
  - intros k Hk. unfold coming. cbn. now destruct k as [| [| [| k]]].
Defined.

(** ** The footprint of Save *)

(** X10. The footprint of [Save].  A call makes exactly one store call,
    the write of the record as [Save] left it, with the payload it was
    given and the identifier it had.  When the write succeeds the table
    holds that record under its identifier; when it fails the error of the
    store is returned as it is and the table is unchanged, though the
    record in memory has been updated all the same.  Items under other
    keys are never touched. *)
Theorem Save_footprint (now : Z) (P : string) (s : Secret) (w : World) :
  let '((s', err), w') := Save now P s w in
  calls w' = PutItem s' :: calls w
  /\ Secret_Message s' = P
  /\ Secret_Secret s' = Secret_Secret s
  /\ s' = set_Message P (set_Expire (Secret_Expire s') s)
  /\ err = option_map awserr (coming 0 w)
  /\ (err = None -> table w' !! Secret_Secret s = Some s')
  /\ (err <> None -> table w' = table w)
  /\ (forall k : string,
        k <> Secret_Secret s -> table w' !! k = table w !! k).
Proof.
  unfold Save. run_store. cbn [table faults calls].
  rewrite coming_0.
  destruct (Secret_Expire s =? 0); destruct (coming 0 w) as [code |];
    cbn [option_map table faults calls fst snd];
    repeat match goal with |- _ /\ _ => split end;
    try reflexivity; try discriminate; try congruence;
    try (now destruct s).
  all: first [ intros _; apply lookup_insert_eq
             | intros k Hk; apply lookup_insert_ne; cbn; congruence ].
Qed.

(** ** Several deposits *)

(** X11. The last deposit under an identifier wins.  When two records
    with the same identifier are saved one after the other, a destructive
    reveal returns the payload and the hint of the second, and nothing is
    left under the identifier afterwards: the first deposit can no longer
    be obtained. *)
Theorem second_deposit_replaces_first
    (t1 t2 : Z) (P1 P2 : string) (s1 s2 : Secret) (ip : string) (w : World)
    (secret : string) :
  Secret_Secret s2 = Secret_Secret s1 ->
  well_formed (Secret_Secret s1) ->
  origin_ok s2 ip ->
  base64.DecodeString P2 = (secret, None) ->
  secret <> "" ->
  (forall k : nat, (k < 4)%nat -> coming k w = None) ->
  let '(_, w1) := Save t1 P1 s1 w in
  let '(_, w2) := Save t2 P2 s2 w1 in
  let '((revealed, err), w3) := Reveal (Secret_Secret s1) ip true w2 in
  err = None
  /\ Revealed_Secret revealed = P2
  /\ Revealed_Hint revealed = Secret_Hint s2
  /\ Revealed_HasPass revealed = Secret_HasPass s2
  /\ table w3 !! Secret_Secret s1 = None.
Proof.
  intros Hsame Hid Hip Hd Hne Hok.
  rewrite Save_stores by (rewrite coming_0; apply Hok; lia).
  set (w1 := mkWorld _ _ _).
  rewrite <- Hsame in Hid |- *.
  destruct (Save_then_Reveal t2 P2 s2 ip w1 secret Hid Hip Hd Hne)
    as (w2 & HS & Ht & Hc & Hcalls & HR);
    try (unfold w1; healthy Hok).
  rewrite HS, HR. cbn [deleted table].
  split; [reflexivity |]. split; [reflexivity |].
  split; [| split; [| apply lookup_delete_eq]];
    unfold disclosed, saved; destruct (Secret_Expire s2 =? 0); reflexivity.
Qed.

Lemma second_deposit_replaces_first_witness :
  let '(_, w1) := Save 1700000000 "Zmlyc3Q=" Sample.record Sample.empty in
  let '(_, w2) := Save 1700000060 "aGVsbG8=" Sample.record w1 in
  let '((revealed, err), w3) :=
    Reveal (Secret_Secret Sample.record) "10.0.0.1" true w2 in
  err = None
  /\ Revealed_Secret revealed = "aGVsbG8="
  /\ Revealed_Hint revealed = Secret_Hint Sample.record
  /\ Revealed_HasPass revealed = Secret_HasPass Sample.record
  /\ table w3 !! Secret_Secret Sample.record = None.
Proof.
  apply (second_deposit_replaces_first 1700000000 1700000060
           "Zmlyc3Q=" "aGVsbG8=" Sample.record Sample.record "10.0.0.1"
           Sample.empty "hello").
  - reflexivity.
  - exact Sample_id_well_formed.
  - left. reflexivity.
  - reflexivity.
  - exact Sample_hello_not_empty.
  - intros k Hk. unfold coming. cbn. now destruct k.
Defined.

(** X12. Deposits under different identifiers do not interfere.  After
    two records with different identifiers have been saved, a destructive
    reveal of the first returns the first payload and removes the first
    item only: the second record is still in the table, as it was
    saved. *)
Theorem deposits_do_not_interfere
    (t1 t2 : Z) (P1 P2 : string) (s1 s2 : Secret) (ip : string) (w : World)
    (secret : string) :
  Secret_Secret s1 <> Secret_Secret s2 ->
  well_formed (Secret_Secret s1) ->
  origin_ok s1 ip ->
  base64.DecodeString P1 = (secret, None) ->
  secret <> "" ->
  (forall k : nat, (k < 4)%nat -> coming k w = None) ->
  let '(_, w1) := Save t1 P1 s1 w in
  let '(_, w2) := Save t2 P2 s2 w1 in
  let '((revealed, err), w3) := Reveal (Secret_Secret s1) ip true w2 in
  err = None
  /\ Revealed_Secret revealed = P1
  /\ table w3 !! Secret_Secret s1 = None
  /\ table w3 !! Secret_Secret s2 = Some (saved t2 P2 s2).
Proof.
  intros Hdiff Hid Hip Hd Hne Hok.
  rewrite Save_stores by (rewrite coming_0; apply Hok; lia).
  set (w1 := mkWorld _ _ _).
  rewrite Save_stores by (rewrite coming_0; unfold w1; healthy Hok).
  set (w2 := mkWorld _ _ _).
  rewrite (Reveal_discloses (Secret_Secret s1) ip w2 Hid (saved t1 P1 s1))
    with (secret := secret).
  - cbn [deleted table]. split; [reflexivity |]. split; [reflexivity |].
    split; [apply lookup_delete_eq |].
    rewrite lookup_delete_ne by exact Hdiff. apply lookup_insert_eq.
  - unfold w2, w1. healthy Hok.
  - unfold w2, w1. cbn [table].
    rewrite lookup_insert_ne by congruence. apply lookup_insert_eq.
  - unfold origin_ok. now rewrite saved_Ip.
  - exact Hd.
  - exact Hne.
  - unfold w2, w1. healthy Hok.
Qed.

Lemma deposits_do_not_interfere_witness :
  let '(_, w1) := Save 1700000000 "aGVsbG8=" Sample.record Sample.empty in
  let '(_, w2) := Save 1700000060 "b3RoZXI=" Sample.other w1 in
  let '((revealed, err), w3) :=
    Reveal (Secret_Secret Sample.record) "10.0.0.1" true w2 in
  err = None
  /\ Revealed_Secret revealed = "aGVsbG8="
  /\ table w3 !! Secret_Secret Sample.record = None
  /\ table w3 !! Secret_Secret Sample.other
     = Some (saved 1700000060 "b3RoZXI=" Sample.other).
Proof.
  apply (deposits_do_not_interfere 1700000000 1700000060
           "aGVsbG8=" "b3RoZXI=" Sample.record Sample.other "10.0.0.1"
           Sample.empty "hello").
  - discriminate.
  - exact Sample_id_well_formed.
  - left. reflexivity.
  - reflexivity.
  - exact Sample_hello_not_empty.
  - intros k Hk. unfold coming. cbn. now destruct k.
Defined.

(** X13. A new identifier does not withdraw the old deposit.  When a
    saved record is given a new identifier by [NewId] and saved again, the
    store holds the payload twice, under the old and under the new
    identifier, and each of the two can be revealed once: the same payload
    is disclosed two times. *)
Theorem NewId_then_Save_leaves_the_old_deposit
    (t1 t2 : Z) (P : string) (s : Secret) (id2 : string) (ip : string)
    (w : World) (secret : string) :
  Secret_Secret s <> id2 ->
  well_formed (Secret_Secret s) ->
  well_formed id2 ->
  origin_ok s ip ->
  base64.DecodeString P = (secret, None) ->
  secret <> "" ->
  (forall k : nat, (k < 6)%nat -> coming k w = None) ->
  let '((s1, _), w1) := Save t1 P s w in
  let '(s2, err_id) := NewId (id2, None) s1 in
  let '(_, w2) := Save t2 P s2 w1 in
  let '((first, err1), w3) := Reveal (Secret_Secret s) ip true w2 in
  let '((second, err2), w4) := Reveal id2 ip true w3 in
  err_id = None
  /\ Secret_Secret s2 = id2
  /\ err1 = None /\ Revealed_Secret first = P
  /\ err2 = None /\ Revealed_Secret second = P
  /\ table w4 !! Secret_Secret s = None
  /\ table w4 !! id2 = None.
Proof.
  intros Hdiff Hid Hid2 Hip Hd Hne Hok.
  rewrite Save_stores by (rewrite coming_0; apply Hok; lia).
  set (w1 := mkWorld _ _ _).
  cbn [NewId].
  set (s2 := set_Secret id2 (saved t1 P s)).
  assert (Hkey2 : Secret_Secret s2 = id2) by reflexivity.
  assert (Hip2 : origin_ok s2 ip).
  { unfold origin_ok, s2. cbn [set_Secret Secret_Ip]. now rewrite saved_Ip. }
  rewrite Save_stores by (rewrite coming_0; unfold w1; healthy Hok).
  rewrite Hkey2.
  set (w2 := mkWorld _ _ _).
  rewrite (Reveal_discloses (Secret_Secret s) ip w2 Hid (saved t1 P s))
    with (secret := secret);
    [ | unfold w2, w1; healthy Hok
      | unfold w2, w1; cbn [table];
        rewrite lookup_insert_ne by congruence; apply lookup_insert_eq
      | unfold origin_ok; now rewrite saved_Ip
      | exact Hd | exact Hne
      | unfold w2, w1; healthy Hok ].
  rewrite (Reveal_discloses id2 ip (deleted (Secret_Secret s) w2) Hid2
             (saved t2 P s2)) with (secret := secret);
    [ | unfold w2, w1; healthy Hok
      | unfold w2, w1; cbn [deleted table];
        rewrite lookup_delete_ne by exact Hdiff; apply lookup_insert_eq
      | unfold origin_ok; rewrite saved_Ip; exact Hip2
      | exact Hd | exact Hne
      | unfold w2, w1; healthy Hok ].
  cbn [deleted table].
  repeat split.
  - rewrite lookup_delete_ne by congruence. apply lookup_delete_eq.
  - apply lookup_delete_eq.
Qed.

Lemma NewId_then_Save_leaves_the_old_deposit_witness :
  let '((s1, _), w1) :=
    Save 1700000000 "aGVsbG8=" Sample.record Sample.empty in
  let '(s2, err_id) := NewId (Sample.other_id, None) s1 in
  let '(_, w2) := Save 1700000060 "aGVsbG8=" s2 w1 in
  let '((first, err1), w3) :=
    Reveal (Secret_Secret Sample.record) "10.0.0.1" true w2 in
  let '((second, err2), w4) := Reveal Sample.other_id "10.0.0.1" true w3 in
  err_id = None
  /\ Secret_Secret s2 = Sample.other_id
  /\ err1 = None /\ Revealed_Secret first = "aGVsbG8="
  /\ err2 = None /\ Revealed_Secret second = "aGVsbG8="
  /\ table w4 !! Secret_Secret Sample.record = None
  /\ table w4 !! Sample.other_id = None.
Proof.
  apply (NewId_then_Save_leaves_the_old_deposit 1700000000 1700000060
           "aGVsbG8=" Sample.record Sample.other_id "10.0.0.1"
           Sample.empty "hello").
  - discriminate.
  - exact Sample_id_well_formed.
  - split; reflexivity.
  - left. reflexivity.
  - reflexivity.
  - exact Sample_hello_not_empty.
  - intros k Hk. unfold coming. cbn. now destruct k.
Defined.

(** ** Deposits that Reveal cannot reach *)

(** X14. [Save] does not check the identifier.  A record whose identifier
    the guard of [Reveal] refuses is written to the store all the same,
    and no call of [Reveal] for that identifier, in either mode and from
    any address, ever reaches it: each one ends with "bad id" and leaves
    the world, and so the record, as it was. *)
Theorem ill_formed_deposit_is_unreachable
    (now : Z) (P : string) (s : Secret) (w : World) :
  ~ well_formed (Secret_Secret s) ->
  coming 0 w = None ->
  let '((_, err), w1) := Save now P s w in
  err = None
  /\ table w1 !! Secret_Secret s = Some (saved now P s)
  /\ forall (ip : string) (reveal : bool),
       Reveal (Secret_Secret s) ip reveal w1
       = ((Revealed_zero, Some (errors_New "bad id")), w1).
Proof.
  intros Hbad H0.
  rewrite Save_stores by now rewrite coming_0.
  split; [reflexivity |]. split; [apply lookup_insert_eq |].
  intros ip reveal. apply Reveal_guard_fails. now apply not_well_formed.
Qed.

Lemma Sample_shouting_ill_formed :
  ~ well_formed (Secret_Secret Sample.shouting).
Proof. intros [_ H]. discriminate H. Defined.

Lemma ill_formed_deposit_is_unreachable_witness :
  let '((_, err), w1) :=
    Save 1700000000 "aGVsbG8=" Sample.shouting Sample.empty in
  err = None
  /\ table w1 !! Secret_Secret Sample.shouting
     = Some (saved 1700000000 "aGVsbG8=" Sample.shouting)
  /\ forall (ip : string) (reveal : bool),
       Reveal (Secret_Secret Sample.shouting) ip reveal w1
       = ((Revealed_zero, Some (errors_New "bad id")), w1).
Proof.
  apply (ill_formed_deposit_is_unreachable 1700000000 "aGVsbG8="
           Sample.shouting Sample.empty).
  - exact Sample_shouting_ill_formed.
  - reflexivity.
Defined.

(** ** Lifetimes, continued *)

(** X15. [NewSecret] leaves [Hours] at zero, so [SetTimeout] called on a
    fresh record, before the caller has set [Hours], always fails with
    "invalid expiration" and the record keeps the 72-hour expiry of its
    creation, whatever the generator returned. *)
Theorem SetTimeout_on_fresh_secret_fails (t0 t1 : Z) (rnd : RandomId) :
  Secret_Hours (NewSecret t0 rnd) = 0
  /\ SetTimeout t1 (NewSecret t0 rnd)
     = (NewSecret t0 rnd, Some (errors_New "invalid expiration"))
  /\ Secret_Expire (fst (SetTimeout t1 (NewSecret t0 rnd))) = t0 + 72 * 3600.
Proof.
  assert (Hh : Secret_Hours (NewSecret t0 rnd) = 0).
  { unfold NewSecret. destruct rnd as [id [e |]]; reflexivity. }
  assert (Hs : SetTimeout t1 (NewSecret t0 rnd)
               = (NewSecret t0 rnd, Some (errors_New "invalid expiration"))).
  { apply SetTimeout_out_of_range. rewrite Hh. lia. }
  split; [exact Hh |]. split; [exact Hs |].
  rewrite Hs. apply NewSecret_expire.
Qed.

Lemma Save_logs (now : Z) (P : string) (s : Secret) (w : World) :
  calls (snd (Save now P s w)) = PutItem (saved now P s) :: calls w.
Proof.
  unfold Save, saved. run_store.
  now destruct (option_map awserr (List.hd None (faults w))).
Qed.

(** X16. A lifetime set by [SetTimeout] survives the deposit.  For an
    hour count between 1 and 72 and a clock at or after the epoch,
    [SetTimeout] followed by [Save] writes an item whose expiry is the time
    of the [SetTimeout] call plus that many hours; it lies between one hour
    and 72 hours after that call, and the 24-hour default of [Save] plays
    no part, whenever the deposit is made. *)
Theorem SetTimeout_then_Save_keeps_lifetime
    (t1 t2 : Z) (P : string) (s : Secret) (w : World) :
  1 <= Secret_Hours s <= 72 ->
  0 <= t1 ->
  let '(s1, err1) := SetTimeout t1 s in
  let '((s2, _), w2) := Save t2 P s1 w in
  err1 = None
  /\ Secret_Expire s2 = t1 + Secret_Hours s * 3600
  /\ t1 + 3600 <= Secret_Expire s2 <= t1 + 72 * 3600
  /\ head (calls w2) = Some (PutItem s2).
Proof.
  intros Hh Ht.
  rewrite SetTimeout_in_range by exact Hh.
  pose proof (Save_record t2 P (set_Expire (t1 + 3600 * Secret_Hours s) s) w)
    as Hrec.
  pose proof (Save_logs t2 P (set_Expire (t1 + 3600 * Secret_Hours s) s) w)
    as Hcalls.
  destruct (Save t2 P _ w) as [[s2 err] w2].
  cbn [fst snd] in Hrec, Hcalls.
  assert (Hexp : Secret_Expire s2 = t1 + 3600 * Secret_Hours s).
  { rewrite Hrec. rewrite saved_expire_nonzero by (cbn; lia). reflexivity. }
  split; [reflexivity |]. split; [lia |]. split; [lia |].
  rewrite Hcalls, Hrec. reflexivity.
Qed.

Lemma SetTimeout_then_Save_keeps_lifetime_witness :
  let '(s1, err1) := SetTimeout 1700000000 (set_Hours 5 Sample.record) in
  let '((s2, _), w2) := Save 1700090000 "aGVsbG8=" s1 Sample.empty in
  err1 = None
  /\ Secret_Expire s2
     = 1700000000 + Secret_Hours (set_Hours 5 Sample.record) * 3600
  /\ 1700000000 + 3600 <= Secret_Expire s2 <= 1700000000 + 72 * 3600
  /\ head (calls w2) = Some (PutItem s2).
Proof.
  apply (SetTimeout_then_Save_keeps_lifetime 1700000000 1700090000
           "aGVsbG8=" (set_Hours 5 Sample.record) Sample.empty).
  - cbn. lia.
  - lia.
Defined.

(** ** What Reveal does not read *)

(** X17. [Reveal] takes no account of the expiry.  Its result depends on
    the stored record only through the identifier, the payload, the origin
    address and the fields it passes on: replacing the record by one that
    differs in [Expire], [Hours] or [Err] alone changes neither the
    response nor the error.  A record whose expiry time is long past, but
    which the store still holds, is revealed like any other. *)
Theorem Reveal_ignores_expiry
    (id ip : string) (reveal : bool) (w : World) (s s' : Secret) :
  table w !! id = Some s ->
  same_view s s' ->
  fst (Reveal id ip reveal (with_item id s' w))
  = fst (Reveal id ip reveal w).
Proof.
  intros Hs (H1 & H2 & H3 & H4 & H5 & H6 & H7 & H8 & H9).
  unfold Reveal.
  destruct (negb (String.length id =? 16)%nat
            || regexp.MatchString notHex_pattern id); [reflexivity |].
  run_store. cbn [with_item table faults calls].
  destruct (option_map awserr (List.hd None (faults w))); [reflexivity |].
  cbn [table faults calls]. rewrite lookup_insert_eq, Hs.
  rewrite <- ?H1, <- ?H2, <- ?H3, <- ?H4, <- ?H5, <- ?H6, <- ?H7, <- ?H8,
    <- ?H9.
  destruct ((0 <? String.length (Secret_Ip s))%nat
            && negb (String.eqb (Secret_Ip s) ip)); [reflexivity |].
  destruct reveal; cbn [negb].
  2: { now destruct (String.eqb (Secret_Secret s) id). }
  destruct (base64.DecodeString (Secret_Message s)) as [secret [e |]];
    [reflexivity |].
  destruct (String.length secret =? 0)%nat; [reflexivity |].
  cbn [table faults calls].
  now destruct (option_map awserr (List.hd None (List.tl (faults w)))).
Qed.

Lemma Sample_expired_same_view : same_view Sample.record Sample.expired.
Proof. repeat split. Defined.

Lemma Reveal_ignores_expiry_witness :
  fst (Reveal Sample.id "10.0.0.1" true
         (with_item Sample.id Sample.expired Sample.stored))
  = fst (Reveal Sample.id "10.0.0.1" true Sample.stored).
Proof.
  apply (Reveal_ignores_expiry Sample.id "10.0.0.1" true Sample.stored
           Sample.record Sample.expired).
  - exact Sample_stored_lookup.
  - exact Sample_expired_same_view.
Defined.

(** ** The configuration *)

(** X18. [newClient] never reports an error, whatever the environment.
    The table name is the value of APPLICATION when that variable is set,
    even to the empty string, and "sharedpw" otherwise; the region is the
    value of REGION or "us-east-1".  The variable TABLE, which the comment
    of the function names, is not read: setting or changing it changes
    nothing. *)
Theorem newClient_reads_APPLICATION_not_TABLE
    (environ : gmap string string) (v : string) :
  snd (config.newClient environ) = newClient
  /\ snd (config.newClient environ) = None
  /\ fst (fst (config.newClient environ))
     = default "sharedpw" (environ !! "APPLICATION")
  /\ config.Region (snd (fst (config.newClient environ)))
     = default "us-east-1" (environ !! "REGION")
  /\ fst (fst (config.newClient (<["APPLICATION" := ""]> environ))) = ""
  /\ config.newClient (<["TABLE" := v]> environ) = config.newClient environ
  /\ config.newClient (delete "TABLE" environ) = config.newClient environ.
Proof.
  unfold config.newClient, config.LookupEnv, newClient.
  rewrite lookup_insert_eq.
  rewrite !lookup_insert_ne by discriminate.
  rewrite !lookup_delete_ne by discriminate.
  repeat split; cbn;
    try (destruct (environ !! "APPLICATION"); reflexivity);
    try (destruct (environ !! "REGION"); reflexivity).
Qed.

(** ** What a caller from the wrong address can learn *)

(** X19. A caller whose address differs from the one a record is bound to
    learns nothing about the record.  If the item under the identifier is
    replaced by any other record bound to some other address than the
    caller's, the call returns the same response and the same error and
    makes the same store calls, in either mode: the payload, the hint and
    the other fields have no influence on what this caller sees. *)
Theorem wrong_origin_learns_nothing
    (id ip : string) (reveal : bool) (w : World) (s s' : Secret) :
  table w !! id = Some s ->
  Secret_Ip s <> "" -> Secret_Ip s <> ip ->
  Secret_Ip s' <> "" -> Secret_Ip s' <> ip ->
  fst (Reveal id ip reveal (with_item id s' w))
  = fst (Reveal id ip reveal w)
  /\ calls (snd (Reveal id ip reveal (with_item id s' w)))
     = calls (snd (Reveal id ip reveal w))
  /\ (fst (Reveal id ip reveal w) = bad_id
      \/ (exists code : string,
            fst (Reveal id ip reveal w) = (Revealed_zero, Some (awserr code)))
      \/ fst (Reveal id ip reveal w)
         = (Revealed_zero, Some (errors_New "not found"))).
Proof.
  intros Hs Hb Hne Hb' Hne'.
  destruct (well_formed_dec id) as [Hid | Hid].
  2: { rewrite !Reveal_guard_fails by now apply not_well_formed.
       repeat split. now left. }
  destruct (coming 0 w) as [code |] eqn:H0.
  { rewrite (Reveal_lookup_fails id ip w Hid reveal code H0).
    rewrite (Reveal_lookup_fails id ip (with_item id s' w) Hid reveal code H0).
    repeat split. right. left. now exists code. }
  rewrite (Reveal_origin_mismatch id ip w Hid s H0 Hs reveal)
    by (intros [H | H]; congruence).
  rewrite (Reveal_origin_mismatch id ip (with_item id s' w) Hid s' H0)
    by (first [apply lookup_insert_eq | intros [H | H]; congruence]).
  repeat split. right. right. reflexivity.
Qed.

Lemma wrong_origin_learns_nothing_witness :
  fst (Reveal Sample.id "10.0.0.2" true
         (with_item Sample.id
            (mkSecret Sample.id 0 0 "hunter2" "10.0.0.7" false "" None
                      "" "" "" "")
            Sample.stored_bound))
  = fst (Reveal Sample.id "10.0.0.2" true Sample.stored_bound)
  /\ calls (snd (Reveal Sample.id "10.0.0.2" true
                   (with_item Sample.id
                      (mkSecret Sample.id 0 0 "hunter2" "10.0.0.7" false ""
                                None "" "" "" "")
                      Sample.stored_bound)))
     = calls (snd (Reveal Sample.id "10.0.0.2" true Sample.stored_bound))
  /\ (fst (Reveal Sample.id "10.0.0.2" true Sample.stored_bound) = bad_id
      \/ (exists code : string,
            fst (Reveal Sample.id "10.0.0.2" true Sample.stored_bound)
            = (Revealed_zero, Some (awserr code)))
      \/ fst (Reveal Sample.id "10.0.0.2" true Sample.stored_bound)
         = (Revealed_zero, Some (errors_New "not found"))).
Proof.
  apply (wrong_origin_learns_nothing Sample.id "10.0.0.2" true
           Sample.stored_bound Sample.bound
           (mkSecret Sample.id 0 0 "hunter2" "10.0.0.7" false "" None
                     "" "" "" "")).
  - exact Sample_stored_bound_lookup.
  - discriminate.
  - discriminate.
  - discriminate.
  - discriminate.
Defined.

(** ** Saving again *)

(** X20. Saving a record again does not extend its life.  With a clock at
    or after the epoch, the expiry fixed by the first [Save] (the one the
    record had, or the 24-hour default) is the one every later [Save]
    writes, whenever it is made; the later call changes the payload
    only. *)
Theorem Save_again_keeps_expiry
    (t1 t2 : Z) (P1 P2 : string) (s : Secret) (w : World) :
  0 <= t1 ->
  let '((s1, _), w1) := Save t1 P1 s w in
  let '((s2, _), w2) := Save t2 P2 s1 w1 in
  Secret_Expire s2 = Secret_Expire s1
  /\ s2 = set_Message P2 s1
  /\ calls w2 = PutItem s2 :: PutItem s1 :: calls w.
Proof.
  intros Ht.
  pose proof (Save_record t1 P1 s w) as Hr1.
  pose proof (Save_logs t1 P1 s w) as Hc1.
  destruct (Save t1 P1 s w) as [[s1 e1] w1]. cbn [fst snd] in Hr1, Hc1.
  pose proof (Save_record t2 P2 s1 w1) as Hr2.
  pose proof (Save_logs t2 P2 s1 w1) as Hc2.
  destruct (Save t2 P2 s1 w1) as [[s2 e2] w2]. cbn [fst snd] in Hr2, Hc2.
  assert (Hnz : Secret_Expire s1 <> 0).
  { rewrite Hr1. destruct (Z.eq_dec (Secret_Expire s) 0) as [Hz | Hz].
    - rewrite saved_expire_zero by exact Hz. lia.
    - now rewrite saved_expire_nonzero by exact Hz. }
  assert (Hs2 : s2 = set_Message P2 s1).
  { rewrite Hr2. unfold saved.
    destruct (Z.eqb_spec (Secret_Expire s1) 0); [contradiction | reflexivity]. }
  split; [now rewrite Hs2 |]. split; [exact Hs2 |].
  now rewrite Hc2, Hc1, <- Hr2, <- Hr1.
Qed.

Lemma Save_again_keeps_expiry_witness :
  let '((s1, _), w1) :=
    Save 1700000000 "Zmlyc3Q=" (set_Expire 0 Sample.record) Sample.empty in
  let '((s2, _), w2) := Save 1700500000 "aGVsbG8=" s1 w1 in
  Secret_Expire s2 = Secret_Expire s1
  /\ s2 = set_Message "aGVsbG8=" s1
  /\ calls w2 = PutItem s2 :: PutItem s1 :: calls Sample.empty.
Proof.
  apply (Save_again_keeps_expiry 1700000000 1700500000 "Zmlyc3Q=" "aGVsbG8="
           (set_Expire 0 Sample.record) Sample.empty).
  lia.
Defined.
